(** * Quiz API backend: the in-memory data service of [server.js]

    A shallow embedding of [QuizService] (server.js, lines 8-96) over the
    data model, and of [QuizService] and the handlers of [QuizController]
    (lines 99-164) over the JavaScript values that request bodies hold, with
    the properties of the service and of the handlers stated and proved over
    them.

    Conventions of the embedding.
    - The two module-level arrays [quizzes] and [questions] form the store;
      an array is a list in insertion order and [push] appends at the end.
    - Identifiers, titles, prompts and option labels are strings, compared
      with [===], which on strings is [String.eqb].
    - [throw new Error(msg)] is the left injection of the result; a throw
      keeps the store as it is at that point (nothing is rolled back).
    - [uuidv4()] is an external generator: the identifier it returns is an
      argument of the two operations that call it, and the reachability
      relation supplies only identifiers that were never handed out. *)

From Stdlib Require Import List String Bool Arith Lia Permutation.
From Stdlib Require PrimFloat.
Import ListNotations.
Open Scope string_scope.
Open Scope list_scope.

(** ** Data model *)

(** An element of a question's [options] array: [{id, text}]. *)
Module Opt.
Record t : Type := mk { id : string; text : string }.
End Opt.

(** [class Quiz]: [questions] is the array of question ids. *)
Module Quiz.
Record t : Type := mk { id : string; title : string; questions : list string }.
End Quiz.

(** [class Question]. *)
Module Question.
Record t : Type := mk
  { id : string;
    quizId : string;
    text : string;
    options : list Opt.t;
    correctOptionId : string }.
End Question.

(** An element of the [answers] array: [{questionId, selectedOptionId}]. *)
Module Answer.
Record t : Type := mk { questionId : string; selectedOptionId : string }.
End Answer.

(** The object [{ score, total }] returned by [submitAnswers]. *)
Record Result : Type := mkResult { score : nat; total : nat }.

(** The module-level variables [quizzes] and [questions]. *)
Record Store : Type := mkStore
  { quizzes : list Quiz.t;
    questions : list Question.t }.

Definition empty : Store := {| quizzes := []; questions := [] |}.

(** ** Object literals

    The projections built by [getAllQuizzes] and [getQuestions] are object
    literals: finite lists of properties, in the order they are written. *)

Inductive prop_value : Type :=
| PStr (s : string)
| POptions (os : list Opt.t).

Definition object : Type := list (string * prop_value).

Fixpoint get_prop (key : string) (o : object) : option prop_value :=
  match o with
  | [] => None
  | (k, v) :: rest => if String.eqb k key then Some v else get_prop key rest
  end.

Definition keys (o : object) : list string := List.map fst o.

(** ** Errors *)

Inductive exn : Type :=
| Error (message : string).

Definition message (e : exn) : string :=
  match e with Error m => m end.

(** The three failures of the service, under the names of the error taxonomy. *)
Definition NotFound : exn := Error "Quiz not found".
Definition InvalidReference : exn := Error "Invalid correct option ID".
Definition ValidationError : exn := Error "Answers must cover all questions".

(** ** The store-and-exception monad *)

Definition M (A : Type) : Type := Store -> (exn + A) * Store.

Definition ret {A} (a : A) : M A := fun s => (inr a, s).

Definition throw {A} (e : exn) : M A := fun s => (inl e, s).

Definition bind {A B} (m : M A) (k : A -> M B) : M B :=
  fun s =>
    match m s with
    | (inl e, s') => (inl e, s')
    | (inr a, s') => k a s'
    end.

Declare Scope service_scope.
Delimit Scope service_scope with service.
Notation "x <- m ;; k" := (bind m (fun x => k))
  (at level 61, m at next level, right associativity) : service_scope.
Notation "m ;;; k" := (bind m (fun _ => k))
  (at level 61, right associativity) : service_scope.
Open Scope service_scope.

Definition read_quizzes : M (list Quiz.t) := fun s => (inr (quizzes s), s).

Definition read_questions : M (list Question.t) := fun s => (inr (questions s), s).

(** [quizzes.push(quiz)] *)
Definition push_quiz (quiz : Quiz.t) : M unit :=
  fun s => (inr tt, {| quizzes := quizzes s ++ [quiz]; questions := questions s |}).

(** [questions.push(question)] *)
Definition push_question (question : Question.t) : M unit :=
  fun s => (inr tt, {| quizzes := quizzes s; questions := questions s ++ [question] |}).

(** Mutation of the first element satisfying [p]: the object that
    [Array.prototype.find] returned is the one stored in the array. *)
Fixpoint update_first {A} (p : A -> bool) (f : A -> A) (l : list A) : list A :=
  match l with
  | [] => []
  | x :: rest => if p x then f x :: rest else x :: update_first p f rest
  end.

Definition has_id (quizId : string) (q : Quiz.t) : bool :=
  String.eqb (Quiz.id q) quizId.

Definition push_id (id : string) (quiz : Quiz.t) : Quiz.t :=
  {| Quiz.id := Quiz.id quiz;
     Quiz.title := Quiz.title quiz;
     Quiz.questions := Quiz.questions quiz ++ [id] |}.

(** [quiz.questions.push(id)], where [quiz] is [quizzes.find(q => q.id === quizId)]. *)
Definition push_question_id (quizId id : string) : M unit :=
  fun s => (inr tt, {| quizzes := update_first (has_id quizId) (push_id id) (quizzes s);
                       questions := questions s |}).

(** ** QuizService *)

Module QuizService.

(** [q => q.quizId === quizId] *)
Definition belongs (quizId : string) (q : Question.t) : bool :=
  String.eqb (Question.quizId q) quizId.

Definition createQuiz (uuid title : string) : M Quiz.t :=
  let id := uuid in
  let quiz := Quiz.mk id title [] in
  push_quiz quiz ;;;
  ret quiz.

Definition getAllQuizzes : M (list object) :=
  qs <- read_quizzes ;;
  ret (List.map (fun q => [("id", PStr (Quiz.id q)); ("title", PStr (Quiz.title q))]) qs).

Definition addQuestion (uuid quizId text : string) (options : list Opt.t)
    (correctOptionId : string) : M Question.t :=
  qs <- read_quizzes ;;
  match find (has_id quizId) qs with
  | None => throw NotFound
  | Some _ =>
      match find (fun opt => String.eqb (Opt.id opt) correctOptionId) options with
      | None => throw InvalidReference
      | Some _ =>
          let id := uuid in
          let question := Question.mk id quizId text options correctOptionId in
          push_question question ;;;
          push_question_id quizId id ;;;
          ret question
      end
  end.

(** [q => ({ id: q.id, text: q.text, options: q.options })] *)
Definition view (q : Question.t) : object :=
  [("id", PStr (Question.id q));
   ("text", PStr (Question.text q));
   ("options", POptions (Question.options q))].

Definition getQuestions (quizId : string) : M (list object) :=
  qs <- read_quizzes ;;
  match find (has_id quizId) qs with
  | None => throw NotFound
  | Some _ =>
      all <- read_questions ;;
      ret (List.map view (filter (belongs quizId) all))
  end.

(** The body of the [forEach] callback: the score after one more answer. *)
Definition mark (quizQuestions : list Question.t) (score : nat) (answer : Answer.t) : nat :=
  match find (fun q => String.eqb (Question.id q) (Answer.questionId answer)) quizQuestions with
  | Some question =>
      if String.eqb (Question.correctOptionId question) (Answer.selectedOptionId answer)
      then S score
      else score
  | None => score
  end.

Definition submitAnswers (quizId : string) (answers : list Answer.t) : M Result :=
  qs <- read_quizzes ;;
  match find (has_id quizId) qs with
  | None => throw NotFound
  | Some _ =>
      all <- read_questions ;;
      let quizQuestions := filter (belongs quizId) all in
      let total := List.length quizQuestions in
      if negb (Nat.eqb (List.length answers) total)
      then throw ValidationError
      else
        let score := fold_left (mark quizQuestions) answers 0 in
        ret {| score := score; total := total |}
  end.

End QuizService.

(** ** QuizController: the two GET handlers

    Their only input is the route parameter, a string, so they are stated
    over the store of the data model. *)

Module QuizController.

(** The JSON document a handler sends with [res.json]: [{ error: message }],
    one object, an array of objects, or [{ score, total }]. *)
Inductive json : Type :=
| JError (message : string)
| JObject (o : object)
| JArray (l : list object)
| JResult (r : Result).

(** [res.status(code).json(sent)]; [res.json(sent)] alone has status 200. *)
Record reply : Type := mkReply
  { code : nat;
    sent : json }.

Definition getAllQuizzes : Store -> reply * Store :=
  fun s =>
    match QuizService.getAllQuizzes s with
    | (inr quizzesList, s') => ({| code := 200; sent := JArray quizzesList |}, s')
    | (inl error, s') => ({| code := 500; sent := JError (message error) |}, s')
    end.

Definition getQuestions (quizId : string) : Store -> reply * Store :=
  fun s =>
    match QuizService.getQuestions quizId s with
    | (inr quizQuestions, s') => ({| code := 200; sent := JArray quizQuestions |}, s')
    | (inl error, s') => ({| code := 404; sent := JError (message error) |}, s')
    end.

End QuizController.

(** ** Runs of the service

    A call of one of the five operations, with the identifier that [uuidv4]
    returns when the operation asks for one. *)

Inductive call : Type :=
| CreateQuiz (uuid title : string)
| GetAllQuizzes
| AddQuestion (uuid quizId text : string) (options : list Opt.t) (correctOptionId : string)
| GetQuestions (quizId : string)
| SubmitAnswers (quizId : string) (answers : list Answer.t).

(** The store after a call, whether it returned or threw. *)
Definition exec (c : call) (s : Store) : Store :=
  match c with
  | CreateQuiz uuid title => snd (QuizService.createQuiz uuid title s)
  | GetAllQuizzes => snd (QuizService.getAllQuizzes s)
  | AddQuestion uuid quizId text options correctOptionId =>
      snd (QuizService.addQuestion uuid quizId text options correctOptionId s)
  | GetQuestions quizId => snd (QuizService.getQuestions quizId s)
  | SubmitAnswers quizId answers => snd (QuizService.submitAnswers quizId answers s)
  end.

Definition quiz_ids (s : Store) : list string := List.map Quiz.id (quizzes s).

Definition question_ids (s : Store) : list string := List.map Question.id (questions s).

(** [uuid] was not handed out before: every identifier generated so far is
    the id of a stored quiz or question. *)
Definition fresh (uuid : string) (s : Store) : Prop :=
  ~ In uuid (quiz_ids s) /\ ~ In uuid (question_ids s).

Definition generates (c : call) (s : Store) : Prop :=
  match c with
  | CreateQuiz uuid _ => fresh uuid s
  | AddQuestion uuid _ _ _ _ => fresh uuid s
  | _ => True
  end.

(** States reachable from the empty store by calls that satisfy the caller's
    obligations [pre]. *)
Inductive reachable (pre : call -> Prop) : Store -> Prop :=
| reachable_empty : reachable pre empty
| reachable_exec (s : Store) (c : call) :
    reachable pre s -> pre c -> generates c s -> reachable pre (exec c s).

(** The caller-validated preconditions: a non-empty title, a non-empty
    prompt and at least two options. *)
Definition documented (c : call) : Prop :=
  match c with
  | CreateQuiz _ title => title <> ""
  | AddQuestion _ _ text options _ => text <> "" /\ 2 <= List.length options
  | _ => True
  end.

Definition option_ids (q : Question.t) : list string :=
  List.map Opt.id (Question.options q).

(** The caller supplies options whose ids are pairwise distinct. *)
Definition distinct_options (c : call) : Prop :=
  match c with
  | AddQuestion _ _ _ options _ => NoDup (List.map Opt.id options)
  | _ => True
  end.

(** The answer names a question of the list by its id and selects that
    question's correct option. *)
Definition hits (quizQuestions : list Question.t) (a : Answer.t) : bool :=
  existsb (fun q => String.eqb (Question.id q) (Answer.questionId a)
                    && String.eqb (Question.correctOptionId q) (Answer.selectedOptionId a))
          quizQuestions.


(** ** A sample run: the "Math Quiz" scenario *)

Definition two_plus_two : list Opt.t := [Opt.mk "a" "3"; Opt.mk "b" "4"].

Definition math_run : list call :=
  [CreateQuiz "quiz-1" "Math Quiz";
   AddQuestion "question-1" "quiz-1" "What is 2+2?" two_plus_two "b"].

Definition replay (cs : list call) (s : Store) : Store :=
  fold_left (fun s c => exec c s) cs s.

Definition math_store : Store := replay math_run empty.

(** What one answer adds to the score. *)
Definition point (quizQuestions : list Question.t) (a : Answer.t) : nat :=
  QuizService.mark quizQuestions 0 a.

(** The same run with a second question. *)
Definition arith_run : list call :=
  math_run ++
  [AddQuestion "question-2" "quiz-1" "What is 3+3?" [Opt.mk "x" "5"; Opt.mk "y" "6"] "y"].

Definition arith_store : Store := replay arith_run empty.

(** A question with its correct option blanked out. *)
Definition redact (q : Question.t) : Question.t :=
  {| Question.id := Question.id q;
     Question.quizId := Question.quizId q;
     Question.text := Question.text q;
     Question.options := Question.options q;
     Question.correctOptionId := "" |}.

(** A call either leaves the store alone, or is a [createQuiz], or is an
    [addQuestion] that passed both checks. *)
Inductive effect (s : Store) : call -> Store -> Prop :=
| effect_none (c : call) : effect s c s
| effect_quiz (uuid title : string) :
    effect s (CreateQuiz uuid title)
      {| quizzes := quizzes s ++ [Quiz.mk uuid title []]; questions := questions s |}
| effect_question (uuid quizId text : string) (options : list Opt.t)
    (correctOptionId : string) :
    In quizId (quiz_ids s) ->
    In correctOptionId (List.map Opt.id options) ->
    effect s (AddQuestion uuid quizId text options correctOptionId)
      {| quizzes := update_first (has_id quizId) (push_id uuid) (quizzes s);
         questions := questions s
                      ++ [Question.mk uuid quizId text options correctOptionId] |}.

(** Quiz ids are distinct, question ids are distinct, every question belongs
    to a stored quiz, and every quiz lists the ids of its questions in the
    order of the question collection. *)
Record consistent (s : Store) : Prop := mkConsistent
  { quiz_ids_distinct : NoDup (quiz_ids s);
    question_ids_distinct : NoDup (question_ids s);
    owner_exists : forall q, In q (questions s) -> In (Question.quizId q) (quiz_ids s);
    ids_listed : forall quiz, In quiz (quizzes s) ->
      Quiz.questions quiz
      = List.map Question.id (filter (QuizService.belongs (Quiz.id quiz)) (questions s)) }.

(** The documented preconditions together with distinct option ids. *)
Definition careful (c : call) : Prop := documented c /\ distinct_options c.

(** A run in which the options of the question share one id. *)
Definition twin_options : list Opt.t := [Opt.mk "a" "3"; Opt.mk "a" "4"].

Definition twin_run : list call :=
  [CreateQuiz "quiz-1" "Math Quiz";
   AddQuestion "question-1" "quiz-1" "What is 2+2?" twin_options "a"].

Definition twin_store : Store := replay twin_run empty.

(** The answer that names a question and selects its correct option. *)
Definition correct_answer (q : Question.t) : Answer.t :=
  Answer.mk (Question.id q) (Question.correctOptionId q).

(** [{ id, title }], as [getAllQuizzes] lists a quiz. *)
Definition listing (q : Quiz.t) : object :=
  [("id", PStr (Quiz.id q)); ("title", PStr (Quiz.title q))].

(** A small run over two quizzes. *)
Definition two_quiz_run : list call :=
  arith_run ++
  [CreateQuiz "quiz-2" "History";
   AddQuestion "question-3" "quiz-2" "Who built it?" [Opt.mk "p" "Pharaoh"; Opt.mk "q" "Queen"] "p"].

Definition two_quiz_store : Store := replay two_quiz_run empty.

(** [s'] holds the quizzes and questions of [s], in the same places, and
    possibly more after them. *)
Definition grows (s s' : Store) : Prop :=
  (exists added, questions s' = questions s ++ added)
  /\ (exists added, List.map listing (quizzes s') = List.map listing (quizzes s) ++ added).

(** * The program on request bodies

    The handlers read [req.body], which is whatever [express.json()] parsed
    (or [undefined] when nothing was parsed), and hand its fields to the
    service unchanged.  This part embeds the same code over JavaScript
    values; the data model above is its restriction to text titles, text
    prompts, [{id, text}] options and [{questionId, selectedOptionId}]
    answers. *)

(** ** JavaScript values *)

Module Js.

(** A value built by [JSON.parse], or [undefined]. *)
#[warnings="-register-all"]
Inductive value : Type :=
| Undefined
| Null
| Bool (b : bool)
| Number (n : PrimFloat.float)
| Str (s : string)
| Arr (items : list value)
| Obj (props : list (string * value)).

(** [!v] is [negb (truthy v)]: [undefined], [null], [false], [0], [-0],
    [NaN] and the empty string are falsy. *)
Definition truthy (v : value) : bool :=
  match v with
  | Undefined | Null => false
  | Bool b => b
  | Number n => negb (PrimFloat.eqb n PrimFloat.zero || negb (PrimFloat.eqb n n))
  | Str s => negb (String.eqb s "")
  | Arr _ | Obj _ => true
  end.

(** [a === b].  Numbers compare as doubles.  An array or object is equal
    only to itself; the values compared by this program come from different
    places of parsed bodies, which share no array or object. *)
Definition strict_eq (a b : value) : bool :=
  match a, b with
  | Undefined, Undefined => true
  | Null, Null => true
  | Bool x, Bool y => Bool.eqb x y
  | Number x, Number y => PrimFloat.eqb x y
  | Str x, Str y => String.eqb x y
  | _, _ => false
  end.

(** The own property [key] of an object, [undefined] when it has none; a
    key listed twice reads as its first entry. *)
Fixpoint own (key : string) (props : list (string * value)) : value :=
  match props with
  | [] => Undefined
  | (k, v) :: rest => if String.eqb k key then v else own key rest
  end.

(** [v.key], and [const { key } = v]: [None] is the TypeError thrown when
    [v] is [undefined] or [null].  The property names this program reads
    ([title], [text], [options], [correctOptionId], [answers], [id],
    [questionId], [selectedOptionId]) are on no prototype, so a primitive or
    an array gives [undefined]. *)
Definition get (v : value) (key : string) : option value :=
  match v with
  | Undefined | Null => None
  | Obj props => Some (own key props)
  | Bool _ | Number _ | Str _ | Arr _ => Some Undefined
  end.

End Js.

(** ** The store and the service on JavaScript values *)

Module Raw.

Module Quiz.
Record t : Type := mk { id : string; title : Js.value; questions : list string }.
End Quiz.

Module Question.
Record t : Type := mk
  { id : string;
    quizId : string;
    text : Js.value;
    options : list Js.value;
    correctOptionId : Js.value }.
End Question.

Record Store : Type := mkStore
  { quizzes : list Quiz.t;
    questions : list Question.t }.

Definition empty : Store := {| quizzes := []; questions := [] |}.

(** What a [catch] receives: an [Error] of the service, or the TypeError of
    a property read on [undefined] or [null]. *)
Inductive thrown : Type :=
| Thrown (e : exn)
| TypeError.

(** [error.message]; the text of a TypeError is the engine's. *)
Inductive said : Type :=
| Message (s : string)
| EngineMessage.

Definition message_of (e : thrown) : said :=
  match e with
  | Thrown e => Message (message e)
  | TypeError => EngineMessage
  end.

(** What [res.json] is given: [{ error: ... }], a value, or [{ score, total }]. *)
Inductive payload : Type :=
| Failure (error : said)
| Json (v : Js.value)
| Score (r : Result).

Record reply : Type := mkReply
  { code : nat;
    sent : payload }.

Definition has_id (quizId : string) (q : Quiz.t) : bool :=
  String.eqb (Quiz.id q) quizId.

Definition push_id (id : string) (quiz : Quiz.t) : Quiz.t :=
  {| Quiz.id := Quiz.id quiz;
     Quiz.title := Quiz.title quiz;
     Quiz.questions := Quiz.questions quiz ++ [id] |}.

(** The service as the handlers call it: [quizId] is a route parameter, a
    string; [options] and [answers] are arrays; every other argument is any
    value. *)
Module QuizService.

Definition belongs (quizId : string) (q : Question.t) : bool :=
  String.eqb (Question.quizId q) quizId.

Definition createQuiz (uuid : string) (title : Js.value)
    : Store -> (thrown + Quiz.t) * Store :=
  fun s =>
    let id := uuid in
    let quiz := Quiz.mk id title [] in
    (inr quiz, {| quizzes := quizzes s ++ [quiz]; questions := questions s |}).

Definition getAllQuizzes : Store -> (thrown + list Js.value) * Store :=
  fun s =>
    (inr (List.map (fun q => Js.Obj [("id", Js.Str (Quiz.id q)); ("title", Quiz.title q)])
                   (quizzes s)), s).

(** [options.find(opt => opt.id === correctOptionId)]: the callback throws
    on an [undefined] or [null] element met before a match. *)
Fixpoint find_option (correctOptionId : Js.value) (options : list Js.value)
    : thrown + option Js.value :=
  match options with
  | [] => inr None
  | opt :: rest =>
      match Js.get opt "id" with
      | None => inl TypeError
      | Some id =>
          if Js.strict_eq id correctOptionId
          then inr (Some opt)
          else find_option correctOptionId rest
      end
  end.

Definition addQuestion (uuid quizId : string) (text : Js.value) (options : list Js.value)
    (correctOptionId : Js.value) : Store -> (thrown + Question.t) * Store :=
  fun s =>
    match find (has_id quizId) (quizzes s) with
    | None => (inl (Thrown NotFound), s)
    | Some _ =>
        match find_option correctOptionId options with
        | inl e => (inl e, s)
        | inr None => (inl (Thrown InvalidReference), s)
        | inr (Some correctOption) =>
            if negb (Js.truthy correctOption)
            then (inl (Thrown InvalidReference), s)
            else
              let id := uuid in
              let question := Question.mk id quizId text options correctOptionId in
              (inr question,
               {| quizzes := update_first (has_id quizId) (push_id id) (quizzes s);
                  questions := questions s ++ [question] |})
        end
    end.

(** [q => ({ id: q.id, text: q.text, options: q.options })] *)
Definition view (q : Question.t) : Js.value :=
  Js.Obj [("id", Js.Str (Question.id q));
          ("text", Question.text q);
          ("options", Js.Arr (Question.options q))].

Definition getQuestions (quizId : string) : Store -> (thrown + list Js.value) * Store :=
  fun s =>
    match find (has_id quizId) (quizzes s) with
    | None => (inl (Thrown NotFound), s)
    | Some _ => (inr (List.map view (filter (belongs quizId) (questions s))), s)
    end.

(** The body of the [forEach] callback.  [answer.questionId] is read by the
    callback of [quizQuestions.find], once per question tried, so it is not
    read when the quiz has no question. *)
Definition mark (quizQuestions : list Question.t) (score : nat) (answer : Js.value)
    : thrown + nat :=
  match quizQuestions with
  | [] => inr score
  | _ :: _ =>
      match Js.get answer "questionId" with
      | None => inl TypeError
      | Some questionId =>
          match find (fun q => Js.strict_eq (Js.Str (Question.id q)) questionId)
                     quizQuestions with
          | None => inr score
          | Some question =>
              match Js.get answer "selectedOptionId" with
              | None => inl TypeError
              | Some selectedOptionId =>
                  if Js.strict_eq (Question.correctOptionId question) selectedOptionId
                  then inr (S score)
                  else inr score
              end
          end
      end
  end.

(** [answers.forEach(...)], left to right, stopping at the first throw. *)
Fixpoint forEach (quizQuestions : list Question.t) (answers : list Js.value) (score : nat)
    : thrown + nat :=
  match answers with
  | [] => inr score
  | answer :: rest =>
      match mark quizQuestions score answer with
      | inl e => inl e
      | inr score' => forEach quizQuestions rest score'
      end
  end.

Definition submitAnswers (quizId : string) (answers : list Js.value)
    : Store -> (thrown + Result) * Store :=
  fun s =>
    match find (has_id quizId) (quizzes s) with
    | None => (inl (Thrown NotFound), s)
    | Some _ =>
        let quizQuestions := filter (belongs quizId) (questions s) in
        let total := List.length quizQuestions in
        if negb (Nat.eqb (List.length answers) total)
        then (inl (Thrown ValidationError), s)
        else
          match forEach quizQuestions answers 0 with
          | inl e => (inl e, s)
          | inr score => (inr {| score := score; total := total |}, s)
          end
    end.

End QuizService.

(** The handlers; [body] is [req.body] and [quizId] is [req.params.quizId]. *)
Module QuizController.

Definition failure (code : nat) (text : string) : reply :=
  {| code := code; sent := Failure (Message text) |}.

Definition caught (code : nat) (error : thrown) : reply :=
  {| code := code; sent := Failure (message_of error) |}.

Definition createQuiz (uuid : string) (body : Js.value) : Store -> reply * Store :=
  fun s =>
    match Js.get body "title" with
    | None => (caught 500 TypeError, s)
    | Some title =>
        if negb (Js.truthy title)
        then (failure 400 "Title is required", s)
        else
          match QuizService.createQuiz uuid title s with
          | (inr quiz, s') =>
              ({| code := 201;
                  sent := Json (Js.Obj [("id", Js.Str (Quiz.id quiz));
                                        ("title", Quiz.title quiz)]) |}, s')
          | (inl error, s') => (caught 500 error, s')
          end
    end.

Definition getAllQuizzes : Store -> reply * Store :=
  fun s =>
    match QuizService.getAllQuizzes s with
    | (inr quizzesList, s') => ({| code := 200; sent := Json (Js.Arr quizzesList) |}, s')
    | (inl error, s') => (caught 500 error, s')
    end.

Definition addQuestion (uuid quizId : string) (body : Js.value) : Store -> reply * Store :=
  fun s =>
    match Js.get body "text", Js.get body "options", Js.get body "correctOptionId" with
    | Some text, Some options, Some correctOptionId =>
        if negb (Js.truthy text) || negb (Js.truthy options)
           || negb (Js.truthy correctOptionId)
        then (failure 400 "Text, options, and correctOptionId are required", s)
        else
          match options with
          | Js.Arr items =>
              if Nat.ltb (List.length items) 2
              then (failure 400 "Options must be an array with at least 2 items", s)
              else
                match QuizService.addQuestion uuid quizId text items correctOptionId s with
                | (inr question, s') =>
                    ({| code := 201;
                        sent := Json (Js.Obj [("id", Js.Str (Question.id question));
                                              ("text", Question.text question);
                                              ("options", Js.Arr (Question.options question))])
                     |}, s')
                | (inl error, s') => (caught 400 error, s')
                end
          | _ => (failure 400 "Options must be an array with at least 2 items", s)
          end
    | _, _, _ => (caught 400 TypeError, s)
    end.

Definition getQuestions (quizId : string) : Store -> reply * Store :=
  fun s =>
    match QuizService.getQuestions quizId s with
    | (inr quizQuestions, s') => ({| code := 200; sent := Json (Js.Arr quizQuestions) |}, s')
    | (inl error, s') => (caught 404 error, s')
    end.

Definition submitAnswers (quizId : string) (body : Js.value) : Store -> reply * Store :=
  fun s =>
    match Js.get body "answers" with
    | None => (caught 400 TypeError, s)
    | Some (Js.Arr answers) =>
        match QuizService.submitAnswers quizId answers s with
        | (inr result, s') => ({| code := 200; sent := Score result |}, s')
        | (inl error, s') => (caught 400 error, s')
        end
    | Some _ => (failure 400 "Answers must be an array", s)
    end.

End QuizController.

(** A handler call: the identifier [uuidv4] would return, and the request. *)
Inductive request : Type :=
| PostQuiz (body : Js.value)
| GetQuizzes
| PostQuestion (quizId : string) (body : Js.value)
| GetQuestions (quizId : string)
| PostSubmit (quizId : string) (body : Js.value).

Definition handle (uuid : string) (r : request) (s : Store) : reply * Store :=
  match r with
  | PostQuiz body => QuizController.createQuiz uuid body s
  | GetQuizzes => QuizController.getAllQuizzes s
  | PostQuestion quizId body => QuizController.addQuestion uuid quizId body s
  | GetQuestions quizId => QuizController.getQuestions quizId s
  | PostSubmit quizId body => QuizController.submitAnswers quizId body s
  end.

(** Stores built from the empty one by calls of the five handlers. *)
Inductive served : Store -> Prop :=
| served_empty : served empty
| served_handle (s : Store) (uuid : string) (r : request) :
    served s -> served (snd (handle uuid r s)).

End Raw.

(** ** The data model inside the JavaScript values *)

Definition js_option (o : Opt.t) : Js.value :=
  Js.Obj [("id", Js.Str (Opt.id o)); ("text", Js.Str (Opt.text o))].


Definition js_quiz (q : Quiz.t) : Raw.Quiz.t :=
  Raw.Quiz.mk (Quiz.id q) (Js.Str (Quiz.title q)) (Quiz.questions q).

Definition js_question (q : Question.t) : Raw.Question.t :=
  Raw.Question.mk (Question.id q) (Question.quizId q) (Js.Str (Question.text q))
    (List.map js_option (Question.options q)) (Js.Str (Question.correctOptionId q)).

Definition js_store (s : Store) : Raw.Store :=
  {| Raw.quizzes := List.map js_quiz (quizzes s);
     Raw.questions := List.map js_question (questions s) |}.

(** The body [{ text, options, correctOptionId }] of a well-typed request. *)
Definition question_body (text : string) (options : list Opt.t) (correctOptionId : string)
    : Js.value :=
  Js.Obj [("text", Js.Str text);
          ("options", Js.Arr (List.map js_option options));
          ("correctOptionId", Js.Str correctOptionId)].

(** [undefined] or [null]: the values whose properties cannot be read. *)
Definition nullish (v : Js.value) : Prop := v = Js.Undefined \/ v = Js.Null.

(** Every option of the list has an [id] that can be read and is not
    [correctOptionId]. *)
Definition passed_over (correctOptionId : Js.value) (options : list Js.value) : Prop :=
  forall opt, In opt options ->
    exists id, Js.get opt "id" = Some id /\ Js.strict_eq id correctOptionId = false.

(** [options] holds an option whose [id] is [correctOptionId], after options
    whose [id] can be read and is different. *)
Definition names_option (correctOptionId : Js.value) (options : list Js.value) : Prop :=
  exists before opt id after,
    options = before ++ opt :: after
    /\ passed_over correctOptionId before
    /\ Js.get opt "id" = Some id
    /\ Js.strict_eq id correctOptionId = true.

(** [options] holds [undefined] or [null] before any option whose [id] is
    [correctOptionId]. *)
Definition trips_over (correctOptionId : Js.value) (options : list Js.value) : Prop :=
  exists before opt after,
    options = before ++ opt :: after
    /\ passed_over correctOptionId before
    /\ nullish opt.

(** The request body has a truthy text, an array of at least two options
    and a truthy correct option id, the quiz exists, and the options name the
    correct option id: what [POST /quizzes/:quizId/questions] needs to
    answer 201. *)
Definition creatable (s : Raw.Store) (quizId : string) (body : Js.value)
    (text : Js.value) (items : list Js.value) (cid : Js.value) : Prop :=
  Js.get body "text" = Some text
  /\ Js.get body "options" = Some (Js.Arr items)
  /\ Js.get body "correctOptionId" = Some cid
  /\ Js.truthy text = true
  /\ Js.truthy cid = true
  /\ 2 <= List.length items
  /\ (exists quiz, In quiz (Raw.quizzes s) /\ Raw.Quiz.id quiz = quizId)
  /\ names_option cid items.

(** What a handler call does to the store: nothing, or the [push] of
    [createQuiz] with a truthy title, or the two [push]es of an [addQuestion]
    whose body passed every check. *)
Inductive raw_effect (s : Raw.Store) (uuid : string) : Raw.request -> Raw.Store -> Prop :=
| raw_effect_none (r : Raw.request) : raw_effect s uuid r s
| raw_effect_quiz (body title : Js.value) :
    Js.get body "title" = Some title ->
    Js.truthy title = true ->
    raw_effect s uuid (Raw.PostQuiz body)
      {| Raw.quizzes := Raw.quizzes s ++ [Raw.Quiz.mk uuid title []];
         Raw.questions := Raw.questions s |}
| raw_effect_question (quizId : string) (body text : Js.value) (items : list Js.value)
    (cid : Js.value) :
    creatable s quizId body text items cid ->
    raw_effect s uuid (Raw.PostQuestion quizId body)
      {| Raw.quizzes := update_first (Raw.has_id quizId) (Raw.push_id uuid) (Raw.quizzes s);
         Raw.questions := Raw.questions s ++ [Raw.Question.mk uuid quizId text items cid] |}.




(** * Properties *)

(** ** Lookups *)

Section Lookups.

Variable s : Store.
Variable quizId : string.

Lemma find_quiz_some :
  In quizId (quiz_ids s) ->
  exists quiz, find (has_id quizId) (quizzes s) = Some quiz /\ Quiz.id quiz = quizId.
Proof.
  unfold quiz_ids. induction (quizzes s) as [|q qs IH]; simpl.
  - intros [].
  - intros H. unfold has_id at 1. destruct (String.eqb_spec (Quiz.id q) quizId) as [E|E].
    + exists q. split; [reflexivity | exact E].
    + destruct H as [H|H]; [contradiction | auto].
Qed.

Lemma find_quiz_none :
  ~ In quizId (quiz_ids s) -> find (has_id quizId) (quizzes s) = None.
Proof.
  unfold quiz_ids. induction (quizzes s) as [|q qs IH]; simpl.
  - reflexivity.
  - intros H. unfold has_id at 1. destruct (String.eqb_spec (Quiz.id q) quizId) as [E|E].
    + exfalso. apply H. left. exact E.
    + apply IH. intros HIn. apply H. right. exact HIn.
Qed.

(** [submitAnswers] once the quiz has been found. *)
Lemma submitAnswers_found (answers : list Answer.t) :
  In quizId (quiz_ids s) ->
  QuizService.submitAnswers quizId answers s =
    let quizQuestions := filter (QuizService.belongs quizId) (questions s) in
    if Nat.eqb (List.length answers) (List.length quizQuestions)
    then (inr {| score := fold_left (QuizService.mark quizQuestions) answers 0;
                 total := List.length quizQuestions |}, s)
    else (inl ValidationError, s).
Proof.
  intros H. destruct (find_quiz_some H) as [quiz [Hf _]].
  unfold QuizService.submitAnswers, bind, read_quizzes, read_questions, throw, ret.
  rewrite Hf. cbv zeta.
  destruct (Nat.eqb (List.length answers) _); reflexivity.
Qed.

Lemma getQuestions_found :
  In quizId (quiz_ids s) ->
  QuizService.getQuestions quizId s =
    (inr (List.map QuizService.view (filter (QuizService.belongs quizId) (questions s))), s).
Proof.
  intros H. destruct (find_quiz_some H) as [quiz [Hf _]].
  unfold QuizService.getQuestions, bind, read_quizzes, read_questions, ret.
  rewrite Hf. reflexivity.
Qed.

End Lookups.

(** ** The scoring loop *)

Section Scoring.

Variable quizQuestions : list Question.t.

Lemma mark_point (n : nat) (a : Answer.t) :
  QuizService.mark quizQuestions n a = n + point quizQuestions a.
Proof.
  unfold point, QuizService.mark.
  destruct (find _ quizQuestions) as [q|]; [|lia].
  destruct (String.eqb _ _); lia.
Qed.

Lemma point_le_1 (a : Answer.t) : point quizQuestions a <= 1.
Proof.
  unfold point, QuizService.mark.
  destruct (find _ quizQuestions) as [q|]; [|lia].
  destruct (String.eqb _ _); lia.
Qed.

Lemma forEach_sum (answers : list Answer.t) (n : nat) :
  fold_left (QuizService.mark quizQuestions) answers n
  = n + list_sum (List.map (point quizQuestions) answers).
Proof.
  revert n. induction answers as [|a rest IH]; intros n; simpl.
  - lia.
  - rewrite IH, mark_point. lia.
Qed.

Lemma forEach_bound (answers : list Answer.t) :
  fold_left (QuizService.mark quizQuestions) answers 0 <= List.length answers.
Proof.
  rewrite forEach_sum. simpl.
  induction answers as [|a rest IH]; simpl; [lia|].
  pose proof (point_le_1 a). lia.
Qed.

Lemma forEach_perm (xs ys : list Answer.t) :
  Permutation xs ys ->
  fold_left (QuizService.mark quizQuestions) xs 0
  = fold_left (QuizService.mark quizQuestions) ys 0.
Proof.
  intros HP. rewrite !forEach_sum. f_equal.
  induction HP; simpl; lia.
Qed.

Lemma find_none_no_id (a : Answer.t) :
  (forall q, In q quizQuestions -> Question.id q <> Answer.questionId a) ->
  find (fun q => String.eqb (Question.id q) (Answer.questionId a)) quizQuestions = None.
Proof.
  induction quizQuestions as [|q qs IH]; simpl; intros H.
  - reflexivity.
  - destruct (String.eqb_spec (Question.id q) (Answer.questionId a)) as [E|E].
    + exfalso. exact (H q (or_introl eq_refl) E).
    + apply IH. intros q' Hq'. apply H. right. exact Hq'.
Qed.

End Scoring.

(** ** submitAnswers and getQuestions on a quiz that does not exist *)

Lemma submitAnswers_missing (s : Store) (quizId : string) (answers : list Answer.t) :
  ~ In quizId (quiz_ids s) ->
  QuizService.submitAnswers quizId answers s = (inl NotFound, s).
Proof.
  intros H. unfold QuizService.submitAnswers, bind, read_quizzes, throw.
  rewrite (find_quiz_none s quizId H). reflexivity.
Qed.

Lemma getQuestions_missing (s : Store) (quizId : string) :
  ~ In quizId (quiz_ids s) ->
  QuizService.getQuestions quizId s = (inl NotFound, s).
Proof.
  intros H. unfold QuizService.getQuestions, bind, read_quizzes, throw.
  rewrite (find_quiz_none s quizId H). reflexivity.
Qed.

Lemma quiz_known_dec (s : Store) (quizId : string) :
  {In quizId (quiz_ids s)} + {~ In quizId (quiz_ids s)}.
Proof. apply in_dec, string_dec. Qed.

(** C2. When the quiz exists, [submitAnswers] throws "Answers must cover all
    questions" exactly when the number of answers differs from the number of
    questions whose [quizId] is [quizId], whatever the answers are; it returns a result
    exactly when the two numbers agree.  For a quiz without questions the
    empty array is the only one accepted, with result [{score: 0, total: 0}]. *)
Theorem submitAnswers_cardinality (s : Store) (quizId : string) (answers : list Answer.t) :
  In quizId (quiz_ids s) ->
  let total := List.length (filter (fun q => String.eqb (Question.quizId q) quizId)
                              (questions s)) in
  (fst (QuizService.submitAnswers quizId answers s) = inl ValidationError
     <-> List.length answers <> total)
  /\ ((exists r, fst (QuizService.submitAnswers quizId answers s) = inr r)
     <-> List.length answers = total)
  /\ message ValidationError = "Answers must cover all questions"
  /\ (total = 0 ->
      ((exists r, fst (QuizService.submitAnswers quizId answers s) = inr r)
         <-> answers = [])
      /\ QuizService.submitAnswers quizId [] s = (inr {| score := 0; total := 0 |}, s)).
Proof.
  intros H total.
  assert (Hrun : forall l, QuizService.submitAnswers quizId l s =
            if Nat.eqb (List.length l) total
            then (inr {| score := fold_left
                            (QuizService.mark (filter (QuizService.belongs quizId) (questions s)))
                            l 0;
                         total := total |}, s)
            else (inl ValidationError, s)).
  { intros l. rewrite (submitAnswers_found _ _ l H). reflexivity. }
  assert (Hok : (exists r, fst (QuizService.submitAnswers quizId answers s) = inr r)
                <-> List.length answers = total).
  { rewrite Hrun. destruct (Nat.eqb_spec (List.length answers) total) as [E|E]; simpl.
    - split; [intros _; exact E | intros _; eexists; reflexivity].
    - split; [intros [r Hr]; discriminate | intros E'; contradiction]. }
  split; [|split; [exact Hok | split; [reflexivity|]]].
  - rewrite Hrun. destruct (Nat.eqb_spec (List.length answers) total) as [E|E]; simpl.
    + split; [intros Hd; discriminate | intros Hn; contradiction].
    + split; [intros _; exact E | reflexivity].
  - intros Hz. split.
    + rewrite Hok, Hz. split.
      * intros Hl. destruct answers; [reflexivity | discriminate].
      * intros ->. reflexivity.
    + rewrite Hrun, Hz. reflexivity.
Qed.

Lemma submitAnswers_cardinality_witness :
  (fst (QuizService.submitAnswers "quiz-1" [] math_store) = inl ValidationError
     <-> List.length (@nil Answer.t) <> 1)
  /\ (fst (QuizService.submitAnswers "quiz-A" [] (exec (CreateQuiz "quiz-A" "Empty") empty))
      = inr {| score := 0; total := 0 |})
  /\ (exists r, fst (QuizService.submitAnswers "quiz-2" [Answer.mk "question-3" "p"]
                       two_quiz_store) = inr r).
Proof.
  split; [|split].
  3:{ destruct (submitAnswers_cardinality two_quiz_store "quiz-2"
                  [Answer.mk "question-3" "p"]) as [_ [Hok _]].
      - vm_compute. right. left. reflexivity.
      - apply Hok. reflexivity. }
  - apply (submitAnswers_cardinality math_store "quiz-1" []).
    vm_compute. left. reflexivity.
  - destruct (submitAnswers_cardinality (exec (CreateQuiz "quiz-A" "Empty") empty) "quiz-A" [])
      as [_ [_ [_ Hz]]].
    + vm_compute. left. reflexivity.
    + destruct (Hz eq_refl) as [_ Hrun]. rewrite Hrun. reflexivity.
Defined.

(** C5. When no quiz of the collection has id [quizId], [getQuestions] and
    [submitAnswers] (for every array of answers) throw "Quiz not found" and
    leave the store as it was: the outcome depends neither on the answers
    nor on the question collection. *)
Theorem missing_quiz_not_found (s : Store) (quizId : string) :
  (forall quiz, In quiz (quizzes s) -> Quiz.id quiz <> quizId) ->
  QuizService.getQuestions quizId s = (inl NotFound, s)
  /\ (forall answers, QuizService.submitAnswers quizId answers s = (inl NotFound, s))
  /\ message NotFound = "Quiz not found".
Proof.
  intros H.
  assert (Hn : ~ In quizId (quiz_ids s)).
  { unfold quiz_ids. intros HIn. apply in_map_iff in HIn.
    destruct HIn as [quiz [E HIn]]. exact (H quiz HIn E). }
  split; [|split].
  - apply getQuestions_missing, Hn.
  - intros answers. apply submitAnswers_missing, Hn.
  - reflexivity.
Qed.

Lemma missing_quiz_not_found_witness :
  QuizService.getQuestions "quiz-2" math_store = (inl NotFound, math_store)
  /\ (forall answers,
        QuizService.submitAnswers "quiz-2" answers math_store = (inl NotFound, math_store))
  /\ message NotFound = "Quiz not found".
Proof.
  apply (missing_quiz_not_found math_store "quiz-2").
  intros quiz HIn. vm_compute in HIn.
  destruct HIn as [<-|[]]. vm_compute. discriminate.
Defined.

(** C6. Whenever [submitAnswers] returns [{score, total}], [score <= total]. *)
Theorem submitAnswers_score_le_total
    (s s' : Store) (quizId : string) (answers : list Answer.t) (r : Result) :
  QuizService.submitAnswers quizId answers s = (inr r, s') ->
  score r <= total r.
Proof.
  destruct (quiz_known_dec s quizId) as [H|H].
  - rewrite (submitAnswers_found _ _ answers H). cbv zeta.
    destruct (Nat.eqb_spec (List.length answers)
                (List.length (filter (QuizService.belongs quizId) (questions s)))) as [E|E].
    + intros Hr. injection Hr as <- _. simpl. rewrite <- E. apply forEach_bound.
    + discriminate.
  - rewrite (submitAnswers_missing s quizId answers H). discriminate.
Qed.

Lemma submitAnswers_score_le_total_witness :
  score {| score := 1; total := 1 |} <= total {| score := 1; total := 1 |}.
Proof.
  apply (submitAnswers_score_le_total math_store math_store "quiz-1"
           [Answer.mk "question-1" "b"] {| score := 1; total := 1 |}).
  vm_compute. reflexivity.
Defined.

(** C7. Scoring does not depend on the order of the answers: on a
    permutation of the array [submitAnswers] throws the same error or returns
    the same [{score, total}], and leaves the same store. *)
Theorem submitAnswers_permutation
    (s : Store) (quizId : string) (answers answers' : list Answer.t) :
  Permutation answers answers' ->
  QuizService.submitAnswers quizId answers s = QuizService.submitAnswers quizId answers' s.
Proof.
  intros HP. destruct (quiz_known_dec s quizId) as [H|H].
  - rewrite !(submitAnswers_found _ _ _ H). cbv zeta.
    rewrite (Permutation_length HP), (forEach_perm _ _ _ HP). reflexivity.
  - rewrite !(submitAnswers_missing s quizId _ H). reflexivity.
Qed.

Lemma submitAnswers_keeps_store (s : Store) (quizId : string) (answers : list Answer.t) :
  snd (QuizService.submitAnswers quizId answers s) = s.
Proof.
  destruct (quiz_known_dec s quizId) as [H|H].
  - rewrite (submitAnswers_found s quizId answers H). cbv zeta.
    destruct (Nat.eqb _ _); reflexivity.
  - rewrite (submitAnswers_missing s quizId answers H). reflexivity.
Qed.

(** C8. [submitAnswers] is read-only: whether it returns or throws, the quiz
    collection and the question collection are the ones it started from. *)
Theorem submitAnswers_read_only (s : Store) (quizId : string) (answers : list Answer.t) :
  snd (QuizService.submitAnswers quizId answers s) = s
  /\ quizzes (snd (QuizService.submitAnswers quizId answers s)) = quizzes s
  /\ questions (snd (QuizService.submitAnswers quizId answers s)) = questions s.
Proof.
  rewrite (submitAnswers_keeps_store s quizId answers). auto.
Qed.

Lemma submitAnswers_permutation_witness :
  QuizService.submitAnswers "quiz-1"
    [Answer.mk "question-1" "b"; Answer.mk "question-2" "x"] arith_store
  = QuizService.submitAnswers "quiz-1"
    [Answer.mk "question-2" "x"; Answer.mk "question-1" "b"] arith_store.
Proof.
  apply (submitAnswers_permutation arith_store "quiz-1").
  apply perm_swap.
Defined.

(** ** getQuestions *)

Lemma views_redact (quizId : string) (l : list Question.t) :
  List.map QuizService.view (filter (QuizService.belongs quizId) l)
  = List.map QuizService.view (filter (QuizService.belongs quizId) (List.map redact l)).
Proof.
  induction l as [|q l IH]; simpl; [reflexivity|].
  change (QuizService.belongs quizId (redact q)) with (QuizService.belongs quizId q).
  destruct (QuizService.belongs quizId q); simpl; rewrite IH; reflexivity.
Qed.

(** C3. When the quiz exists, [getQuestions] returns the questions whose
    [quizId] field is [quizId], in the order of the global question
    collection, each as the object [{id, text, options}].  No returned object
    has a [correctOptionId] property, and the returned list is the same in
    any store that differs only in the questions' correct options. *)
Theorem getQuestions_projection (s : Store) (quizId : string) :
  In quizId (quiz_ids s) ->
  QuizService.getQuestions quizId s
    = (inr (List.map (fun q => [("id", PStr (Question.id q));
                                ("text", PStr (Question.text q));
                                ("options", POptions (Question.options q))])
                     (filter (fun q => String.eqb (Question.quizId q) quizId) (questions s))),
       s)
  /\ (forall views o,
        fst (QuizService.getQuestions quizId s) = inr views -> In o views ->
        keys o = ["id"; "text"; "options"] /\ get_prop "correctOptionId" o = None)
  /\ (forall s2,
        quizzes s2 = quizzes s ->
        List.map redact (questions s2) = List.map redact (questions s) ->
        fst (QuizService.getQuestions quizId s2) = fst (QuizService.getQuestions quizId s)).
Proof.
  intros H. split; [|split].
  - apply getQuestions_found, H.
  - intros views o. rewrite (getQuestions_found s quizId H). simpl.
    intros Hv. injection Hv as <-. intros HIn.
    apply in_map_iff in HIn. destruct HIn as [q [<- _]].
    split; reflexivity.
  - intros s2 Hq Hr.
    assert (H2 : In quizId (quiz_ids s2)) by (unfold quiz_ids; rewrite Hq; exact H).
    rewrite (getQuestions_found s quizId H), (getQuestions_found s2 quizId H2). simpl.
    rewrite (views_redact quizId (questions s2)), (views_redact quizId (questions s)), Hr.
    reflexivity.
Qed.

Lemma getQuestions_projection_witness :
  QuizService.getQuestions "quiz-1" math_store
    = (inr [[("id", PStr "question-1");
             ("text", PStr "What is 2+2?");
             ("options", POptions two_plus_two)]],
       math_store).
Proof.
  destruct (getQuestions_projection math_store "quiz-1") as [Hrun _].
  - vm_compute. left. reflexivity.
  - rewrite Hrun. reflexivity.
Defined.

(** ** addQuestion *)

Lemma update_first_split {A} (p : A -> bool) (f : A -> A) (l : list A) (x : A) :
  find p l = Some x ->
  exists before after,
    l = before ++ x :: after
    /\ (forall y, In y before -> p y = false)
    /\ update_first p f l = before ++ f x :: after.
Proof.
  induction l as [|y l IH]; simpl; [discriminate|].
  destruct (p y) eqn:Hp.
  - intros Hx. injection Hx as <-. exists [], l. simpl. repeat split.
    intros z [].
  - intros Hx. destruct (IH Hx) as [before [after [El [Hb Eu]]]].
    exists (y :: before), after. simpl. rewrite <- El, Eu. repeat split.
    intros z [<-|Hz]; [exact Hp | exact (Hb z Hz)].
Qed.

Lemma find_option_some (options : list Opt.t) (correctOptionId : string) :
  In correctOptionId (List.map Opt.id options) ->
  exists opt, find (fun opt => String.eqb (Opt.id opt) correctOptionId) options = Some opt.
Proof.
  induction options as [|o os IH]; simpl; [intros []|].
  intros H. destruct (String.eqb_spec (Opt.id o) correctOptionId) as [E|E].
  - exists o. reflexivity.
  - destruct H as [H|H]; [contradiction | auto].
Qed.

Lemma find_option_none (options : list Opt.t) (correctOptionId : string) :
  (forall opt, In opt options -> Opt.id opt <> correctOptionId) ->
  find (fun opt => String.eqb (Opt.id opt) correctOptionId) options = None.
Proof.
  induction options as [|o os IH]; simpl; intros H; [reflexivity|].
  destruct (String.eqb_spec (Opt.id o) correctOptionId) as [E|E].
  - exfalso. exact (H o (or_introl eq_refl) E).
  - apply IH. intros opt Ho. apply H. right. exact Ho.
Qed.

(** C4 (counterexample). The claim as first stated fails: with a correct option that is not among
    the options but a quiz id that does not resolve, the error is "Quiz not
    found", since the quiz is looked up first. *)
Lemma addQuestion_missing_quiz_first :
  (forall opt, In opt two_plus_two -> Opt.id opt <> "c")
  /\ QuizService.addQuestion "question-1" "quiz-9" "What is 2+2?" two_plus_two "c" empty
       = (inl NotFound, empty)
  /\ NotFound <> InvalidReference.
Proof.
  split; [|split].
  - intros opt [<-|[<-|[]]]; discriminate.
  - reflexivity.
  - discriminate.
Qed.

(** C4 (amended). [addQuestion] looks the quiz up first: without a quiz of
    that id it throws "Quiz not found".  When the quiz exists and
    [correctOptionId] is the id of none of the options, it throws "Invalid
    correct option ID" and changes nothing, whatever the other arguments.
    When the quiz exists and [correctOptionId] is the id of an option, it
    returns the new question, whose id is the generated one (distinct from
    every stored id when the generator returns a fresh one); the question is
    appended to the question collection and its id to the [questions] array of
    the first quiz with that id, and nothing else changes. *)
Theorem addQuestion_checks
    (s : Store) (uuid quizId text : string) (options : list Opt.t) (correctOptionId : string) :
  (~ In quizId (quiz_ids s) ->
     QuizService.addQuestion uuid quizId text options correctOptionId s = (inl NotFound, s))
  /\ (In quizId (quiz_ids s) ->
      (forall opt, In opt options -> Opt.id opt <> correctOptionId) ->
      QuizService.addQuestion uuid quizId text options correctOptionId s
        = (inl InvalidReference, s)
      /\ message InvalidReference = "Invalid correct option ID")
  /\ (In quizId (quiz_ids s) ->
      In correctOptionId (List.map Opt.id options) ->
      let question := Question.mk uuid quizId text options correctOptionId in
      exists before quiz after,
        quizzes s = before ++ quiz :: after
        /\ Quiz.id quiz = quizId
        /\ (forall q, In q before -> Quiz.id q <> quizId)
        /\ QuizService.addQuestion uuid quizId text options correctOptionId s
           = (inr question,
              {| quizzes := before
                            ++ Quiz.mk (Quiz.id quiz) (Quiz.title quiz)
                                       (Quiz.questions quiz ++ [uuid])
                            :: after;
                 questions := questions s ++ [question] |})
        /\ (fresh uuid s ->
            ~ In (Question.id question) (question_ids s)
            /\ ~ In (Question.id question) (quiz_ids s))).
Proof.
  split; [|split].
  - intros H. unfold QuizService.addQuestion, bind, read_quizzes, throw.
    rewrite (find_quiz_none s quizId H). reflexivity.
  - intros H Hno. destruct (find_quiz_some s quizId H) as [quiz [Hf _]].
    unfold QuizService.addQuestion, bind, read_quizzes, throw.
    rewrite Hf, (find_option_none options correctOptionId Hno). split; reflexivity.
  - intros H Hin question.
    destruct (find_quiz_some s quizId H) as [quiz [Hf Hid]].
    destruct (find_option_some options correctOptionId Hin) as [opt Ho].
    destruct (update_first_split (has_id quizId) (push_id uuid) (quizzes s) quiz Hf)
      as [before [after [El [Hb Eu]]]].
    exists before, quiz, after.
    split; [exact El | split; [exact Hid | split; [|split]]].
    + intros q Hq. specialize (Hb q Hq). unfold has_id in Hb.
      apply String.eqb_neq. exact Hb.
    + unfold QuizService.addQuestion, bind, read_quizzes, push_question,
        push_question_id, ret.
      rewrite Hf, Ho. simpl. rewrite Eu. reflexivity.
    + intros [Hfq Hfn]. split; [exact Hfn | exact Hfq].
Qed.

Lemma addQuestion_checks_witness :
  QuizService.addQuestion "question-2" "quiz-1" "What is 3+3?" two_plus_two "c" math_store
    = (inl InvalidReference, math_store)
  /\ message InvalidReference = "Invalid correct option ID".
Proof.
  destruct (addQuestion_checks math_store "question-2" "quiz-1" "What is 3+3?"
              two_plus_two "c") as [_ [Hbad _]].
  apply Hbad.
  - vm_compute. left. reflexivity.
  - intros opt [<-|[<-|[]]]; discriminate.
Defined.

(** ** The effect of a call on the store *)

Lemma find_quiz_in (s : Store) (quizId : string) (quiz : Quiz.t) :
  find (has_id quizId) (quizzes s) = Some quiz -> In quizId (quiz_ids s).
Proof.
  intros Hf. apply find_some in Hf. destruct Hf as [HIn Hid].
  unfold has_id in Hid. apply String.eqb_eq in Hid. subst quizId.
  unfold quiz_ids. apply in_map. exact HIn.
Qed.

Lemma find_option_in (options : list Opt.t) (correctOptionId : string) (opt : Opt.t) :
  find (fun opt => String.eqb (Opt.id opt) correctOptionId) options = Some opt ->
  In correctOptionId (List.map Opt.id options).
Proof.
  intros Hf. apply find_some in Hf. destruct Hf as [HIn Hid].
  apply String.eqb_eq in Hid. subst correctOptionId. apply in_map. exact HIn.
Qed.

Lemma exec_effect (c : call) (s : Store) : effect s c (exec c s).
Proof.
  destruct c as [uuid title| |uuid quizId text options cid|quizId|quizId answers]; simpl.
  - apply effect_quiz.
  - apply effect_none.
  - unfold QuizService.addQuestion, bind, read_quizzes, throw, push_question,
      push_question_id, ret.
    destruct (find (has_id quizId) (quizzes s)) as [quiz|] eqn:Hf; [|apply effect_none].
    destruct (find _ options) as [opt|] eqn:Ho; [|apply effect_none].
    simpl. apply effect_question.
    + exact (find_quiz_in s quizId quiz Hf).
    + exact (find_option_in options cid opt Ho).
  - unfold QuizService.getQuestions, bind, read_quizzes, read_questions, throw, ret.
    destruct (find _ _); apply effect_none.
  - rewrite (submitAnswers_keeps_store s quizId answers). apply effect_none.
Qed.

(** ** Invariants of reachable stores *)

Lemma update_first_ids (quizId uuid : string) (l : list Quiz.t) :
  List.map Quiz.id (update_first (has_id quizId) (push_id uuid) l) = List.map Quiz.id l.
Proof.
  induction l as [|q l IH]; simpl; [reflexivity|].
  destruct (has_id quizId q); simpl; [reflexivity | rewrite IH; reflexivity].
Qed.

(** With distinct quiz ids, the quizzes after [quiz.questions.push(id)] are
    the untouched quizzes of other ids and the one quiz of that id, extended. *)
Lemma update_first_in (quizId uuid : string) (l : list Quiz.t) (x : Quiz.t) :
  NoDup (List.map Quiz.id l) ->
  In x (update_first (has_id quizId) (push_id uuid) l) ->
  (In x l /\ Quiz.id x <> quizId)
  \/ (exists x0, In x0 l /\ Quiz.id x0 = quizId /\ x = push_id uuid x0).
Proof.
  induction l as [|q l IH]; simpl; [intros _ []|].
  intros HND HIn. apply NoDup_cons_iff in HND. destruct HND as [Hq HND].
  unfold has_id at 1 in HIn.
  destruct (String.eqb_spec (Quiz.id q) quizId) as [E|E].
  - destruct HIn as [<-|HIn].
    + right. exists q. auto.
    + left. split; [right; exact HIn|].
      intros Ex. apply Hq. rewrite E, <- Ex. apply in_map. exact HIn.
  - destruct HIn as [<-|HIn].
    + left. auto.
    + destruct (IH HND HIn) as [[Hl Hx]|[x0 [Hl [Hx0 Hx]]]].
      * left. auto.
      * right. exists x0. auto.
Qed.

Lemma filter_foreign (quizId : string) (l : list Question.t) :
  (forall q, In q l -> Question.quizId q <> quizId) ->
  filter (QuizService.belongs quizId) l = [].
Proof.
  induction l as [|q l IH]; simpl; intros H; [reflexivity|].
  unfold QuizService.belongs at 1.
  destruct (String.eqb_spec (Question.quizId q) quizId) as [E|E].
  - exfalso. exact (H q (or_introl eq_refl) E).
  - apply IH. intros q' Hq'. apply H. right. exact Hq'.
Qed.

Lemma NoDup_snoc (l : list string) (x : string) :
  NoDup l -> ~ In x l -> NoDup (l ++ [x]).
Proof.
  intros HND Hx. apply NoDup_app; [exact HND | repeat constructor; intros [] |].
  intros y Hy [<-|[]]. exact (Hx Hy).
Qed.

Lemma consistent_empty : consistent empty.
Proof.
  constructor; simpl.
  - constructor.
  - constructor.
  - intros q [].
  - intros quiz [].
Qed.

Lemma consistent_effect (s s' : Store) (c : call) :
  consistent s -> generates c s -> effect s c s' -> consistent s'.
Proof.
  intros [HQ HN HO HL] Hg He.
  destruct He as [c|uuid title|uuid quizId text options cid Hk Hc].
  - constructor; assumption.
  - destruct Hg as [Hfq _]. constructor; unfold quiz_ids, question_ids in *; simpl.
    + rewrite map_app. simpl. apply NoDup_snoc; assumption.
    + exact HN.
    + intros q Hq. rewrite map_app. apply in_or_app. left. exact (HO q Hq).
    + intros quiz HIn. apply in_app_or in HIn. destruct HIn as [HIn|[<-|[]]].
      * exact (HL quiz HIn).
      * simpl. rewrite filter_foreign; [reflexivity|].
        intros q Hq E. apply Hfq. rewrite <- E. exact (HO q Hq).
  - destruct Hg as [_ Hfn]. constructor; unfold quiz_ids, question_ids in *; simpl.
    + rewrite update_first_ids. exact HQ.
    + rewrite map_app. simpl. apply NoDup_snoc; assumption.
    + intros q Hq. rewrite update_first_ids.
      apply in_app_or in Hq. destruct Hq as [Hq|[<-|[]]].
      * exact (HO q Hq).
      * exact Hk.
    + intros quiz HIn. rewrite filter_app, map_app. simpl.
      unfold QuizService.belongs at 2. simpl.
      destruct (update_first_in quizId uuid (quizzes s) quiz HQ HIn)
        as [[Hl Hx]|[x0 [Hl [Hx0 ->]]]].
      * destruct (String.eqb_spec quizId (Quiz.id quiz)) as [E|E];
          [exfalso; exact (Hx (eq_sym E))|].
        simpl. rewrite app_nil_r. exact (HL quiz Hl).
      * simpl. rewrite Hx0, String.eqb_refl. simpl.
        rewrite (HL x0 Hl), Hx0. reflexivity.
Qed.

Lemma reachable_consistent (pre : call -> Prop) (s : Store) :
  reachable pre s -> consistent s.
Proof.
  induction 1 as [|s c _ IH _ Hg].
  - apply consistent_empty.
  - exact (consistent_effect s (exec c s) c IH Hg (exec_effect c s)).
Qed.

(** Whatever the caller guarantees of the options of every [addQuestion]
    holds of the options of every stored question: they are stored as given. *)
Lemma reachable_questions (pre : call -> Prop) (P : Question.t -> Prop) (s : Store) :
  (forall uuid quizId text options cid,
      pre (AddQuestion uuid quizId text options cid) ->
      In cid (List.map Opt.id options) ->
      P (Question.mk uuid quizId text options cid)) ->
  reachable pre s ->
  forall q, In q (questions s) -> P q.
Proof.
  intros HP. induction 1 as [|s c _ IH Hpre _].
  - intros q [].
  - destruct (exec_effect c s) as [c|uuid title|uuid quizId text options cid Hk Hc]; simpl.
    + exact IH.
    + exact IH.
    + intros q Hq. apply in_app_or in Hq. destruct Hq as [Hq|[<-|[]]].
      * exact (IH q Hq).
      * exact (HP uuid quizId text options cid Hpre Hc).
Qed.

(** ** Scores over distinct question ids *)

Lemma NoDup_ids_filter (p : Question.t -> bool) (l : list Question.t) :
  NoDup (List.map Question.id l) -> NoDup (List.map Question.id (filter p l)).
Proof.
  induction l as [|q l IH]; simpl; intros HND; [constructor|].
  apply NoDup_cons_iff in HND. destruct HND as [Hq HND].
  destruct (p q); simpl; [|exact (IH HND)].
  constructor; [|exact (IH HND)].
  intros HIn. apply Hq. apply in_map_iff in HIn. destruct HIn as [q' [E Hq']].
  apply filter_In in Hq'. rewrite <- E. apply in_map. exact (proj1 Hq').
Qed.

Lemma hits_spec (quizQuestions : list Question.t) (a : Answer.t) :
  hits quizQuestions a = true
  <-> exists q, In q quizQuestions
                /\ Question.id q = Answer.questionId a
                /\ Question.correctOptionId q = Answer.selectedOptionId a.
Proof.
  unfold hits. rewrite existsb_exists. split.
  - intros [q [HIn Hq]]. apply andb_true_iff in Hq. destruct Hq as [H1 H2].
    apply String.eqb_eq in H1, H2. exists q. auto.
  - intros [q [HIn [H1 H2]]]. exists q. split; [exact HIn|].
    rewrite H1, H2, !String.eqb_refl. reflexivity.
Qed.

Lemma hits_other_ids (l : list Question.t) (a : Answer.t) :
  ~ In (Answer.questionId a) (List.map Question.id l) -> hits l a = false.
Proof.
  intros Hn. destruct (hits l a) eqn:Hh; [|reflexivity].
  apply hits_spec in Hh. destruct Hh as [q [HIn [E _]]].
  exfalso. apply Hn. rewrite <- E. apply in_map. exact HIn.
Qed.

Lemma point_hits (quizQuestions : list Question.t) (a : Answer.t) :
  NoDup (List.map Question.id quizQuestions) ->
  point quizQuestions a = if hits quizQuestions a then 1 else 0.
Proof.
  induction quizQuestions as [|q l IH]; simpl; intros HND; [reflexivity|].
  apply NoDup_cons_iff in HND. destruct HND as [Hq HND].
  unfold point, QuizService.mark, hits. simpl.
  destruct (String.eqb_spec (Question.id q) (Answer.questionId a)) as [E|E]; simpl.
  - fold (hits l a). rewrite hits_other_ids; [|rewrite <- E; exact Hq].
    rewrite orb_false_r. reflexivity.
  - exact (IH HND).
Qed.

Lemma forEach_counts_hits (quizQuestions : list Question.t) (answers : list Answer.t) :
  NoDup (List.map Question.id quizQuestions) ->
  fold_left (QuizService.mark quizQuestions) answers 0
  = List.length (filter (hits quizQuestions) answers).
Proof.
  intros HND. rewrite forEach_sum. simpl.
  induction answers as [|a rest IH]; simpl; [reflexivity|].
  rewrite (point_hits quizQuestions a HND), IH.
  destruct (hits quizQuestions a); reflexivity.
Qed.

(** ** Sample runs are reachable *)

Lemma reachable_weaken (pre pre' : call -> Prop) (s : Store) :
  (forall c, pre c -> pre' c) -> reachable pre s -> reachable pre' s.
Proof.
  intros Hw. induction 1 as [|s c _ IH Hpre Hg].
  - apply reachable_empty.
  - apply reachable_exec; auto.
Qed.

Lemma distinct_two (x y : string) : x <> y -> NoDup [x; y].
Proof.
  intros Hxy. constructor.
  - intros [E|[]]. exact (Hxy (eq_sym E)).
  - constructor; [intros [] | constructor].
Qed.

Lemma math_store_reachable : reachable careful math_store.
Proof.
  change (reachable careful
            (exec (AddQuestion "question-1" "quiz-1" "What is 2+2?" two_plus_two "b")
                  (exec (CreateQuiz "quiz-1" "Math Quiz") empty))).
  apply reachable_exec; [apply reachable_exec; [apply reachable_empty | |] | |].
  - split; simpl; [discriminate | exact I].
  - split; intros [].
  - split; simpl; [split; [discriminate | lia] | apply distinct_two; discriminate].
  - split; simpl; [intros [E|[]]; discriminate | intros []].
Qed.

(** ** The score *)

(** C1. In a reachable store, for a quiz that exists and as many answers as
    the quiz has questions, [submitAnswers] returns [{score, total}] and
    leaves the store alone: [total] counts the questions whose [quizId] is
    [quizId], and [score] counts the answers for which some question of the
    quiz has the answer's [questionId] as id and its [selectedOptionId] as
    correct option.  An answer whose [questionId] is the id of no question of
    the quiz leaves the running score as it is. *)
Theorem score_counts_correct_answers
    (pre : call -> Prop) (s : Store) (quizId : string) (answers : list Answer.t) :
  reachable pre s ->
  In quizId (quiz_ids s) ->
  let quizQuestions := filter (fun q => String.eqb (Question.quizId q) quizId) (questions s) in
  List.length answers = List.length quizQuestions ->
  QuizService.submitAnswers quizId answers s
    = (inr {| score := List.length (filter (hits quizQuestions) answers);
              total := List.length quizQuestions |}, s)
  /\ (forall a, hits quizQuestions a = true
        <-> exists q, In q (questions s)
                      /\ Question.quizId q = quizId
                      /\ Question.id q = Answer.questionId a
                      /\ Question.correctOptionId q = Answer.selectedOptionId a)
  /\ (forall a n,
        (forall q, In q (questions s) -> Question.quizId q = quizId ->
                   Question.id q <> Answer.questionId a) ->
        QuizService.mark quizQuestions n a = n /\ hits quizQuestions a = false).
Proof.
  intros Hr Hk quizQuestions Hlen.
  assert (HND : NoDup (List.map Question.id quizQuestions)).
  { apply NoDup_ids_filter.
    exact (question_ids_distinct s (reachable_consistent pre s Hr)). }
  assert (Hmem : forall q, In q quizQuestions
                           <-> In q (questions s) /\ Question.quizId q = quizId).
  { intros q. unfold quizQuestions. rewrite filter_In, String.eqb_eq. reflexivity. }
  split; [|split].
  - rewrite (submitAnswers_found s quizId answers Hk). cbv zeta.
    change (filter (QuizService.belongs quizId) (questions s)) with quizQuestions.
    rewrite Hlen, Nat.eqb_refl, (forEach_counts_hits quizQuestions answers HND).
    reflexivity.
  - intros a. rewrite hits_spec. split.
    + intros [q [HIn [H1 H2]]]. apply Hmem in HIn. exists q. tauto.
    + intros [q [HIn [Hq [H1 H2]]]]. exists q. rewrite Hmem. tauto.
  - intros a n Hno.
    assert (Hno' : forall q, In q quizQuestions -> Question.id q <> Answer.questionId a).
    { intros q HIn. apply Hmem in HIn. destruct HIn as [HIn Hq]. exact (Hno q HIn Hq). }
    split.
    + unfold QuizService.mark. rewrite (find_none_no_id quizQuestions a Hno'). reflexivity.
    + destruct (hits quizQuestions a) eqn:Hh; [|reflexivity].
      apply hits_spec in Hh. destruct Hh as [q [HIn [E _]]].
      exfalso. exact (Hno' q HIn E).
Qed.

Lemma score_counts_correct_answers_witness :
  QuizService.submitAnswers "quiz-1" [Answer.mk "question-1" "b"] math_store
    = (inr {| score := 1; total := 1 |}, math_store)
  /\ QuizService.submitAnswers "quiz-1" [Answer.mk "question-7" "b"] math_store
    = (inr {| score := 0; total := 1 |}, math_store).
Proof.
  split.
  - destruct (score_counts_correct_answers careful math_store "quiz-1" [Answer.mk "question-1" "b"])
      as [Hrun _].
    + exact math_store_reachable.
    + vm_compute. left. reflexivity.
    + reflexivity.
    + rewrite Hrun. reflexivity.
  - destruct (score_counts_correct_answers careful math_store "quiz-1" [Answer.mk "question-7" "b"])
      as [Hrun _].
    + exact math_store_reachable.
    + vm_compute. left. reflexivity.
    + reflexivity.
    + rewrite Hrun. reflexivity.
Defined.

(** ** Options of stored questions *)

(** C9 (counterexample). The claim as first stated fails: the request with two options of the
    same id passes the controller's checks (status 201) and the service's
    check, so a store that holds a question with repeated option ids is
    reachable under the documented preconditions. *)
Lemma twin_options_stored :
  reachable documented twin_store
  /\ Raw.QuizController.addQuestion "question-1" "quiz-1"
       (Js.Obj [("text", Js.Str "What is 2+2?");
                ("options", Js.Arr [Js.Obj [("id", Js.Str "a"); ("text", Js.Str "3")];
                                    Js.Obj [("id", Js.Str "a"); ("text", Js.Str "4")]]);
                ("correctOptionId", Js.Str "a")])
       (js_store (exec (CreateQuiz "quiz-1" "Math Quiz") empty))
     = ({| Raw.code := 201;
           Raw.sent := Raw.Json
             (Js.Obj [("id", Js.Str "question-1"); ("text", Js.Str "What is 2+2?");
                      ("options",
                       Js.Arr [Js.Obj [("id", Js.Str "a"); ("text", Js.Str "3")];
                               Js.Obj [("id", Js.Str "a"); ("text", Js.Str "4")]])]) |},
        js_store twin_store)
  /\ exists q, In q (questions twin_store) /\ ~ NoDup (option_ids q).
Proof.
  split; [|split].
  - change (reachable documented
              (exec (AddQuestion "question-1" "quiz-1" "What is 2+2?" twin_options "a")
                    (exec (CreateQuiz "quiz-1" "Math Quiz") empty))).
    apply reachable_exec; [apply reachable_exec; [apply reachable_empty | |] | |].
    + simpl. discriminate.
    + split; intros [].
    + simpl. split; [discriminate | lia].
    + split; simpl; [intros [E|[]]; discriminate | intros []].
  - reflexivity.
  - exists (Question.mk "question-1" "quiz-1" "What is 2+2?" twin_options "a").
    split; [left; reflexivity|].
    intros HND. apply NoDup_cons_iff in HND. destruct HND as [Hn _].
    apply Hn. left. reflexivity.
Qed.

(** C9 (amended). The service stores the options as the caller gives them
    and checks only that [correctOptionId] is among their ids.  In every store
    reachable by calls that satisfy the documented preconditions and supply
    options with pairwise distinct ids, every stored question has pairwise
    distinct option ids (and a non-empty text, at least two options, and a
    correct option that is one of its options). *)
Theorem option_ids_distinct_when_supplied (s : Store) :
  reachable (fun c => documented c /\ distinct_options c) s ->
  forall q, In q (questions s) ->
    NoDup (option_ids q)
    /\ Question.text q <> ""
    /\ 2 <= List.length (Question.options q)
    /\ In (Question.correctOptionId q) (option_ids q).
Proof.
  apply (reachable_questions (fun c => documented c /\ distinct_options c)
           (fun q => NoDup (option_ids q)
                     /\ Question.text q <> ""
                     /\ 2 <= List.length (Question.options q)
                     /\ In (Question.correctOptionId q) (option_ids q))).
  intros uuid quizId text options cid [[Ht Hl] Hd] Hc.
  unfold option_ids. simpl. auto.
Qed.

Lemma option_ids_distinct_when_supplied_witness :
  NoDup (option_ids (Question.mk "question-1" "quiz-1" "What is 2+2?" two_plus_two "b")).
Proof.
  apply (option_ids_distinct_when_supplied math_store math_store_reachable).
  left. reflexivity.
Defined.

(** ** A quiz's list of question ids *)

(** C10. In every reachable store, the [questions] array of every quiz is,
    element for element and in the same order, the list of ids of the
    questions of the global collection whose [quizId] is the quiz's id; so
    the [total] that [submitAnswers] computes by filtering the collection is
    the length of that array, and [submitAnswers] returns exactly when the
    number of answers is that length. *)
Theorem quiz_lists_its_questions (pre : call -> Prop) (s : Store) :
  reachable pre s ->
  forall quiz, In quiz (quizzes s) ->
    Quiz.questions quiz
      = List.map Question.id
          (filter (fun q => String.eqb (Question.quizId q) (Quiz.id quiz)) (questions s))
    /\ (forall answers r s',
          QuizService.submitAnswers (Quiz.id quiz) answers s = (inr r, s') ->
          total r = List.length (Quiz.questions quiz))
    /\ (forall answers,
          (exists r, fst (QuizService.submitAnswers (Quiz.id quiz) answers s) = inr r)
          <-> List.length answers = List.length (Quiz.questions quiz)).
Proof.
  intros Hr quiz HIn.
  pose proof (ids_listed s (reachable_consistent pre s Hr) quiz HIn) as HL.
  assert (Hk : In (Quiz.id quiz) (quiz_ids s)) by (apply in_map; exact HIn).
  assert (Hlen : List.length (Quiz.questions quiz)
                 = List.length (filter (QuizService.belongs (Quiz.id quiz)) (questions s))).
  { rewrite HL, length_map. reflexivity. }
  split; [exact HL | split].
  - intros answers r s'. rewrite (submitAnswers_found s (Quiz.id quiz) answers Hk). cbv zeta.
    destruct (Nat.eqb _ _); [|discriminate].
    intros E. injection E as <- _. simpl. symmetry. exact Hlen.
  - intros answers. rewrite (submitAnswers_found s (Quiz.id quiz) answers Hk). cbv zeta.
    rewrite Hlen.
    destruct (Nat.eqb_spec (List.length answers)
                (List.length (filter (QuizService.belongs (Quiz.id quiz)) (questions s))))
      as [E|E]; simpl.
    + split; [intros _; exact E | intros _; eexists; reflexivity].
    + split; [intros [r Hx]; discriminate | intros E'; contradiction].
Qed.

Lemma quiz_lists_its_questions_witness :
  Quiz.questions (Quiz.mk "quiz-1" "Math Quiz" ["question-1"])
  = List.map Question.id
      (filter (fun q => String.eqb (Question.quizId q) "quiz-1") (questions math_store)).
Proof.
  apply (quiz_lists_its_questions careful math_store math_store_reachable
           (Quiz.mk "quiz-1" "Math Quiz" ["question-1"])).
  left. reflexivity.
Defined.

(** * Further properties of the service *)

(** ** The operations, once their checks have passed *)

Lemma addQuestion_stored
    (s : Store) (uuid quizId text : string) (options : list Opt.t) (correctOptionId : string) :
  In quizId (quiz_ids s) ->
  In correctOptionId (List.map Opt.id options) ->
  QuizService.addQuestion uuid quizId text options correctOptionId s
  = (inr (Question.mk uuid quizId text options correctOptionId),
     {| quizzes := update_first (has_id quizId) (push_id uuid) (quizzes s);
        questions := questions s ++ [Question.mk uuid quizId text options correctOptionId] |}).
Proof.
  intros Hk Hc.
  destruct (find_quiz_some s quizId Hk) as [quiz [Hf _]].
  destruct (find_option_some options correctOptionId Hc) as [opt Ho].
  unfold QuizService.addQuestion, bind, read_quizzes, push_question, push_question_id, ret.
  rewrite Hf, Ho. reflexivity.
Qed.

Lemma addQuestion_no_quiz
    (s : Store) (uuid quizId text : string) (options : list Opt.t) (correctOptionId : string) :
  ~ In quizId (quiz_ids s) ->
  QuizService.addQuestion uuid quizId text options correctOptionId s = (inl NotFound, s).
Proof.
  intros H. unfold QuizService.addQuestion, bind, read_quizzes, throw.
  rewrite (find_quiz_none s quizId H). reflexivity.
Qed.

Lemma addQuestion_no_option
    (s : Store) (uuid quizId text : string) (options : list Opt.t) (correctOptionId : string) :
  In quizId (quiz_ids s) ->
  ~ In correctOptionId (List.map Opt.id options) ->
  QuizService.addQuestion uuid quizId text options correctOptionId s
  = (inl InvalidReference, s).
Proof.
  intros Hk Hc. destruct (find_quiz_some s quizId Hk) as [quiz [Hf _]].
  unfold QuizService.addQuestion, bind, read_quizzes, throw.
  rewrite Hf, (find_option_none options correctOptionId); [reflexivity|].
  intros opt Ho E. apply Hc. rewrite <- E. apply in_map. exact Ho.
Qed.

Lemma option_known_dec (options : list Opt.t) (correctOptionId : string) :
  {In correctOptionId (List.map Opt.id options)}
  + {~ In correctOptionId (List.map Opt.id options)}.
Proof. apply in_dec, string_dec. Qed.

Lemma filter_belongs_snoc (quizId : string) (l : list Question.t) (q : Question.t) :
  filter (QuizService.belongs quizId) (l ++ [q])
  = filter (QuizService.belongs quizId) l
    ++ (if String.eqb (Question.quizId q) quizId then [q] else []).
Proof.
  rewrite filter_app. simpl. unfold QuizService.belongs at 2.
  destruct (String.eqb (Question.quizId q) quizId); reflexivity.
Qed.

(** ** createQuiz and getAllQuizzes *)

(** X1. [createQuiz] always returns, with the quiz [{id, title, questions: []}];
    afterwards [getAllQuizzes] lists what it listed before followed by the new
    [{id, title}], and the question collection is untouched. *)
Theorem createQuiz_listed (s : Store) (uuid title : string) :
  let s' := snd (QuizService.createQuiz uuid title s) in
  fst (QuizService.createQuiz uuid title s) = inr (Quiz.mk uuid title [])
  /\ (forall before,
        fst (QuizService.getAllQuizzes s) = inr before ->
        QuizService.getAllQuizzes s'
        = (inr (before ++ [[("id", PStr uuid); ("title", PStr title)]]), s'))
  /\ (exists before, fst (QuizService.getAllQuizzes s) = inr before)
  /\ questions s' = questions s.
Proof.
  cbv zeta. split; [reflexivity | split; [|split; [|reflexivity]]].
  - intros before Hb.
    unfold QuizService.getAllQuizzes, bind, read_quizzes, ret in *. simpl in *.
    injection Hb as <-. rewrite map_app. reflexivity.
  - eexists. reflexivity.
Qed.

Lemma createQuiz_listed_witness :
  QuizService.getAllQuizzes (snd (QuizService.createQuiz "quiz-2" "History" math_store))
  = (inr ([[("id", PStr "quiz-1"); ("title", PStr "Math Quiz")]]
          ++ [[("id", PStr "quiz-2"); ("title", PStr "History")]]),
     snd (QuizService.createQuiz "quiz-2" "History" math_store)).
Proof.
  destruct (createQuiz_listed math_store "quiz-2" "History") as [_ [Hlist _]].
  apply Hlist. reflexivity.
Defined.

(** X2. A quiz created in a reachable store with a fresh id is empty:
    [getQuestions] returns no question, the empty array of answers scores
    [{0, 0}], and any other array is refused. *)
Theorem created_quiz_is_empty (pre : call -> Prop) (s : Store) (uuid title : string) :
  reachable pre s ->
  fresh uuid s ->
  let s' := snd (QuizService.createQuiz uuid title s) in
  QuizService.getQuestions uuid s' = (inr [], s')
  /\ QuizService.submitAnswers uuid [] s' = (inr {| score := 0; total := 0 |}, s')
  /\ (forall a answers,
        QuizService.submitAnswers uuid (a :: answers) s' = (inl ValidationError, s')).
Proof.
  intros Hr [Hfq _] s'.
  pose proof (owner_exists s (reachable_consistent pre s Hr)) as HO.
  assert (Hk : In uuid (quiz_ids s')).
  { unfold s', quiz_ids. simpl. rewrite map_app. apply in_or_app. right. left. reflexivity. }
  assert (Hnone : filter (QuizService.belongs uuid) (questions s') = []).
  { unfold s'. simpl. apply filter_foreign.
    intros q Hq E. apply Hfq. rewrite <- E. exact (HO q Hq). }
  split; [|split].
  - rewrite (getQuestions_found s' uuid Hk), Hnone. reflexivity.
  - rewrite (submitAnswers_found s' uuid [] Hk), Hnone. reflexivity.
  - intros a answers. rewrite (submitAnswers_found s' uuid (a :: answers) Hk), Hnone.
    reflexivity.
Qed.

Lemma created_quiz_is_empty_witness :
  QuizService.getQuestions "quiz-2"
    (snd (QuizService.createQuiz "quiz-2" "History" math_store))
  = (inr [], snd (QuizService.createQuiz "quiz-2" "History" math_store)).
Proof.
  apply (created_quiz_is_empty careful math_store "quiz-2" "History" math_store_reachable).
  split; vm_compute; intros [E|[]]; discriminate.
Defined.

(** ** addQuestion followed by a read *)

(** X3. After an [addQuestion] that passes both checks, [getQuestions] of
    that quiz returns what it returned before followed by the new question's
    [{id, text, options}], and [getQuestions] of any other quiz id returns
    what it returned before. *)
Theorem addQuestion_then_getQuestions
    (s : Store) (uuid quizId text : string) (options : list Opt.t) (correctOptionId : string) :
  In quizId (quiz_ids s) ->
  In correctOptionId (List.map Opt.id options) ->
  let s' := snd (QuizService.addQuestion uuid quizId text options correctOptionId s) in
  (forall before,
     fst (QuizService.getQuestions quizId s) = inr before ->
     QuizService.getQuestions quizId s'
     = (inr (before ++ [[("id", PStr uuid); ("text", PStr text);
                         ("options", POptions options)]]), s'))
  /\ (forall other,
        other <> quizId ->
        fst (QuizService.getQuestions other s') = fst (QuizService.getQuestions other s)).
Proof.
  intros Hk Hc s'.
  assert (Es : s' = {| quizzes := update_first (has_id quizId) (push_id uuid) (quizzes s);
                       questions := questions s
                         ++ [Question.mk uuid quizId text options correctOptionId] |}).
  { unfold s'. rewrite (addQuestion_stored s uuid quizId text options correctOptionId Hk Hc).
    reflexivity. }
  assert (Hids : quiz_ids s' = quiz_ids s).
  { rewrite Es. unfold quiz_ids. simpl. apply update_first_ids. }
  split.
  - intros before. rewrite (getQuestions_found s quizId Hk). simpl. intros Hb.
    injection Hb as <-.
    assert (Hk' : In quizId (quiz_ids s')) by (rewrite Hids; exact Hk).
    rewrite (getQuestions_found s' quizId Hk'). rewrite Es at 1. simpl.
    rewrite filter_belongs_snoc. simpl. rewrite String.eqb_refl, map_app. reflexivity.
  - intros other Hne. destruct (quiz_known_dec s other) as [Ho|Ho].
    + assert (Ho' : In other (quiz_ids s')) by (rewrite Hids; exact Ho).
      rewrite (getQuestions_found s other Ho), (getQuestions_found s' other Ho').
      rewrite Es at 1. simpl. rewrite filter_belongs_snoc. simpl.
      destruct (String.eqb_spec quizId other) as [E|E];
        [exfalso; exact (Hne (eq_sym E))|].
      rewrite app_nil_r. reflexivity.
    + assert (Ho' : ~ In other (quiz_ids s')) by (rewrite Hids; exact Ho).
      rewrite (getQuestions_missing s other Ho), (getQuestions_missing s' other Ho').
      reflexivity.
Qed.

Lemma addQuestion_then_getQuestions_witness :
  fst (QuizService.getQuestions "quiz-2"
         (snd (QuizService.addQuestion "question-2" "quiz-1" "What is 3+3?"
                 two_plus_two "a" math_store)))
  = fst (QuizService.getQuestions "quiz-2" math_store).
Proof.
  destruct (addQuestion_then_getQuestions math_store "question-2" "quiz-1" "What is 3+3?"
              two_plus_two "a") as [_ Hother].
  - vm_compute. left. reflexivity.
  - vm_compute. left. reflexivity.
  - apply Hother. discriminate.
Defined.

(** ** addQuestion followed by submitAnswers *)

Lemma find_snoc {A} (p : A -> bool) (l : list A) (x : A) :
  find p (l ++ [x])
  = match find p l with
    | Some y => Some y
    | None => if p x then Some x else None
    end.
Proof.
  induction l as [|y l IH]; simpl; [reflexivity|].
  destruct (p y); [reflexivity | exact IH].
Qed.

Lemma fold_left_agree {A B} (f g : A -> B -> A) (l : list B) (n : A) :
  (forall m b, In b l -> f m b = g m b) ->
  fold_left f l n = fold_left g l n.
Proof.
  revert n. induction l as [|b l IH]; intros n H; simpl; [reflexivity|].
  rewrite (H n b (or_introl eq_refl)). apply IH.
  intros m b' Hb'. apply H. right. exact Hb'.
Qed.

Lemma mark_snoc_other (qq : list Question.t) (q : Question.t) (n : nat) (a : Answer.t) :
  Answer.questionId a <> Question.id q ->
  QuizService.mark (qq ++ [q]) n a = QuizService.mark qq n a.
Proof.
  intros Hne. unfold QuizService.mark. rewrite find_snoc.
  destruct (find _ qq) as [y|]; [reflexivity|].
  destruct (String.eqb_spec (Question.id q) (Answer.questionId a)) as [E|E];
    [exfalso; exact (Hne (eq_sym E)) | reflexivity].
Qed.

Lemma mark_snoc_new (qq : list Question.t) (q : Question.t) (n : nat) (sel : string) :
  ~ In (Question.id q) (List.map Question.id qq) ->
  QuizService.mark (qq ++ [q]) n (Answer.mk (Question.id q) sel)
  = if String.eqb (Question.correctOptionId q) sel then S n else n.
Proof.
  intros Hn. unfold QuizService.mark. rewrite find_snoc.
  rewrite (find_none_no_id qq (Answer.mk (Question.id q) sel)).
  - simpl. rewrite String.eqb_refl. reflexivity.
  - intros q' Hq' E. apply Hn. simpl in E. rewrite <- E. apply in_map. exact Hq'.
Qed.

(** X4. Scores grow with the quiz.  If [submitAnswers] returned [{score,
    total}] for some answers, none of which names the id that the next
    [addQuestion] to this quiz generates, then after that [addQuestion] the
    same answers followed by one answer to the new question return
    [{score + 1, total + 1}] when that answer selects the new question's
    correct option and [{score, total + 1}] otherwise. *)
Theorem addQuestion_extends_score
    (s : Store) (uuid quizId text : string) (options : list Opt.t) (correctOptionId : string)
    (answers : list Answer.t) (selected : string) (r : Result) :
  In correctOptionId (List.map Opt.id options) ->
  ~ In uuid (question_ids s) ->
  (forall a, In a answers -> Answer.questionId a <> uuid) ->
  fst (QuizService.submitAnswers quizId answers s) = inr r ->
  fst (QuizService.submitAnswers quizId (answers ++ [Answer.mk uuid selected])
         (snd (QuizService.addQuestion uuid quizId text options correctOptionId s)))
  = inr {| score := score r + (if String.eqb correctOptionId selected then 1 else 0);
           total := S (total r) |}.
Proof.
  intros Hc Hfresh Hold Hrun.
  destruct (quiz_known_dec s quizId) as [Hk|Hk];
    [|rewrite (submitAnswers_missing s quizId answers Hk) in Hrun; discriminate].
  rewrite (submitAnswers_found s quizId answers Hk) in Hrun. cbv zeta in Hrun.
  set (qq := filter (QuizService.belongs quizId) (questions s)) in *.
  destruct (Nat.eqb_spec (List.length answers) (List.length qq)) as [El|El];
    [|discriminate].
  simpl in Hrun. injection Hrun as <-.
  rewrite (addQuestion_stored s uuid quizId text options correctOptionId Hk Hc).
  set (new := Question.mk uuid quizId text options correctOptionId).
  set (s' := snd _).
  assert (Hk' : In quizId (quiz_ids s')).
  { unfold s', quiz_ids. simpl. rewrite update_first_ids. exact Hk. }
  rewrite (submitAnswers_found s' quizId _ Hk'). cbv zeta.
  assert (Eqq : filter (QuizService.belongs quizId) (questions s') = qq ++ [new]).
  { unfold s'. simpl. rewrite filter_belongs_snoc. simpl.
    rewrite String.eqb_refl. reflexivity. }
  rewrite Eqq, !length_app. simpl. rewrite El, Nat.eqb_refl. simpl.
  rewrite fold_left_app. simpl.
  assert (Hnew : ~ In (Question.id new) (List.map Question.id qq)).
  { simpl. intros HIn. apply Hfresh. unfold question_ids.
    apply in_map_iff in HIn. destruct HIn as [q [E Hq]].
    apply filter_In in Hq. rewrite <- E. apply in_map. exact (proj1 Hq). }
  change (Answer.mk uuid selected) with (Answer.mk (Question.id new) selected).
  rewrite (mark_snoc_new qq new _ selected Hnew). simpl.
  rewrite (fold_left_agree (QuizService.mark (qq ++ [new])) (QuizService.mark qq)).
  - destruct (String.eqb correctOptionId selected); f_equal; f_equal; lia.
  - intros m a Ha. apply mark_snoc_other. simpl. exact (Hold a Ha).
Qed.

Lemma addQuestion_extends_score_witness :
  fst (QuizService.submitAnswers "quiz-1"
         ([Answer.mk "question-1" "b"] ++ [Answer.mk "question-2" "a"])
         (snd (QuizService.addQuestion "question-2" "quiz-1" "What is 3+3?"
                 two_plus_two "a" math_store)))
  = inr {| score := 2; total := 2 |}.
Proof.
  apply (addQuestion_extends_score math_store "question-2" "quiz-1" "What is 3+3?"
           two_plus_two "a" [Answer.mk "question-1" "b"] "a" {| score := 1; total := 1 |}).
  - vm_compute. left. reflexivity.
  - vm_compute. intros [E|[]]; discriminate.
  - intros a [<-|[]]. discriminate.
  - reflexivity.
Defined.

(** ** Perfect scores *)

Lemma arith_store_reachable : reachable careful arith_store.
Proof.
  change (reachable careful
            (exec (AddQuestion "question-2" "quiz-1" "What is 3+3?"
                     [Opt.mk "x" "5"; Opt.mk "y" "6"] "y") math_store)).
  apply reachable_exec; [exact math_store_reachable | |].
  - split; simpl; [split; [discriminate | lia] | apply distinct_two; discriminate].
  - split; vm_compute; intros [E|[]]; discriminate.
Qed.

Lemma hits_sum (qq : list Question.t) (answers : list Answer.t) :
  (forall a, In a answers -> hits qq a = true) ->
  List.length (filter (hits qq) answers) = List.length answers.
Proof.
  induction answers as [|a rest IH]; simpl; intros H; [reflexivity|].
  rewrite (H a (or_introl eq_refl)). simpl. f_equal. apply IH.
  intros a' Ha'. apply H. right. exact Ha'.
Qed.

Lemma all_hit_full_score (pre : call -> Prop) (s : Store) (quizId : string)
    (answers : list Answer.t) :
  reachable pre s ->
  In quizId (quiz_ids s) ->
  List.length answers = List.length (filter (QuizService.belongs quizId) (questions s)) ->
  (forall a, In a answers ->
             hits (filter (QuizService.belongs quizId) (questions s)) a = true) ->
  QuizService.submitAnswers quizId answers s
  = (inr {| score := List.length answers; total := List.length answers |}, s).
Proof.
  intros Hr Hk Hlen Hall.
  rewrite (submitAnswers_found s quizId answers Hk). cbv zeta.
  rewrite <- Hlen, Nat.eqb_refl, forEach_counts_hits, (hits_sum _ answers Hall).
  - reflexivity.
  - apply NoDup_ids_filter.
    exact (question_ids_distinct s (reachable_consistent pre s Hr)).
Qed.

(** X5. In a reachable store, answering every question of an existing quiz
    with its correct option, one answer per question, scores full marks:
    [score = total =] the number of questions of the quiz. *)
Theorem correct_answers_score_total (pre : call -> Prop) (s : Store) (quizId : string) :
  reachable pre s ->
  In quizId (quiz_ids s) ->
  let quizQuestions := filter (fun q => String.eqb (Question.quizId q) quizId) (questions s) in
  QuizService.submitAnswers quizId
    (List.map (fun q => Answer.mk (Question.id q) (Question.correctOptionId q)) quizQuestions) s
  = (inr {| score := List.length quizQuestions; total := List.length quizQuestions |}, s).
Proof.
  intros Hr Hk quizQuestions.
  change quizQuestions with (filter (QuizService.belongs quizId) (questions s)).
  set (qq := filter (QuizService.belongs quizId) (questions s)).
  change (fun q => Answer.mk (Question.id q) (Question.correctOptionId q)) with correct_answer.
  rewrite (all_hit_full_score pre s quizId (List.map correct_answer qq) Hr Hk).
  - rewrite length_map. reflexivity.
  - apply length_map.
  - intros a Ha. apply in_map_iff in Ha. destruct Ha as [q [<- Hq]].
    apply hits_spec. exists q. auto.
Qed.

Lemma correct_answers_score_total_witness :
  QuizService.submitAnswers "quiz-1"
    [Answer.mk "question-1" "b"] math_store
  = (inr {| score := 1; total := 1 |}, math_store).
Proof.
  apply (correct_answers_score_total careful math_store "quiz-1" math_store_reachable).
  vm_compute. left. reflexivity.
Defined.

(** X6. The score counts answers, not questions.  In a reachable store,
    repeating the correct answer to one question of the quiz as many times as
    the quiz has questions scores full marks, whatever the other questions
    are. *)
Theorem repeated_answer_scores_total
    (pre : call -> Prop) (s : Store) (q : Question.t) :
  reachable pre s ->
  In q (questions s) ->
  let total := List.length (filter (fun x => String.eqb (Question.quizId x) (Question.quizId q))
                              (questions s)) in
  QuizService.submitAnswers (Question.quizId q)
    (repeat (Answer.mk (Question.id q) (Question.correctOptionId q)) total) s
  = (inr {| score := total; total := total |}, s).
Proof.
  intros Hr Hq total.
  pose proof (owner_exists s (reachable_consistent pre s Hr) q Hq) as Hk.
  change total with (List.length (filter (QuizService.belongs (Question.quizId q))
                                         (questions s))).
  set (qq := filter (QuizService.belongs (Question.quizId q)) (questions s)).
  change (Answer.mk (Question.id q) (Question.correctOptionId q)) with (correct_answer q).
  rewrite (all_hit_full_score pre s (Question.quizId q)
             (repeat (correct_answer q) (List.length qq)) Hr Hk).
  - rewrite repeat_length. reflexivity.
  - apply repeat_length.
  - intros a Ha. apply repeat_spec in Ha. subst a.
    apply hits_spec. exists q. split; [|split; reflexivity].
    apply filter_In. split; [exact Hq|]. apply String.eqb_refl.
Qed.

Lemma repeated_answer_scores_total_witness :
  QuizService.submitAnswers "quiz-1"
    [Answer.mk "question-1" "b"; Answer.mk "question-1" "b"] arith_store
  = (inr {| score := 2; total := 2 |}, arith_store).
Proof.
  apply (repeated_answer_scores_total careful arith_store
           (Question.mk "question-1" "quiz-1" "What is 2+2?" two_plus_two "b")).
  - exact arith_store_reachable.
  - left. reflexivity.
Defined.

(** ** Reads only grow *)

Lemma grows_refl (s : Store) : grows s s.
Proof. split; exists []; rewrite app_nil_r; reflexivity. Qed.

Lemma grows_trans (s1 s2 s3 : Store) : grows s1 s2 -> grows s2 s3 -> grows s1 s3.
Proof.
  intros [[a1 H1] [b1 G1]] [[a2 H2] [b2 G2]]. split.
  - exists (a1 ++ a2). rewrite H2, H1, app_assoc. reflexivity.
  - exists (b1 ++ b2). rewrite G2, G1, app_assoc. reflexivity.
Qed.

Lemma update_first_listing (quizId uuid : string) (l : list Quiz.t) :
  List.map listing (update_first (has_id quizId) (push_id uuid) l) = List.map listing l.
Proof.
  induction l as [|q l IH]; simpl; [reflexivity|].
  destruct (has_id quizId q); simpl; [reflexivity | rewrite IH; reflexivity].
Qed.

Lemma grows_exec (c : call) (s : Store) : grows s (exec c s).
Proof.
  destruct (exec_effect c s) as [c|uuid title|uuid quizId text options cid Hk Hc].
  - apply grows_refl.
  - split; simpl.
    + exists []. rewrite app_nil_r. reflexivity.
    + eexists. rewrite map_app. reflexivity.
  - split; simpl.
    + eexists. reflexivity.
    + exists []. rewrite app_nil_r. apply update_first_listing.
Qed.

Lemma grows_replay (cs : list call) (s : Store) : grows s (replay cs s).
Proof.
  revert s. induction cs as [|c cs IH]; intros s; simpl.
  - apply grows_refl.
  - apply (grows_trans s (exec c s)); [apply grows_exec | apply IH].
Qed.

Lemma quiz_ids_listing (s s' : Store) (added : list object) :
  List.map listing (quizzes s') = List.map listing (quizzes s) ++ added ->
  forall quizId, In quizId (quiz_ids s) -> In quizId (quiz_ids s').
Proof.
  intros E quizId Hk. unfold quiz_ids in *.
  apply in_map_iff in Hk. destruct Hk as [quiz [Hid HIn]].
  assert (HL : In (listing quiz) (List.map listing (quizzes s'))).
  { rewrite E. apply in_or_app. left. apply in_map. exact HIn. }
  apply in_map_iff in HL. destruct HL as [quiz' [EL HIn']].
  unfold listing in EL. injection EL as Eid _.
  apply in_map_iff. exists quiz'. split; [congruence | exact HIn'].
Qed.

(** X7. Reads only grow.  After any sequence of calls of the five
    operations, [getAllQuizzes] returns what it returned before followed by
    the quizzes created since, and [getQuestions] of a quiz that existed
    returns what it returned before followed by the questions added since:
    nothing listed is ever removed, changed or reordered. *)
Theorem reads_only_grow (cs : list call) (s : Store) :
  let s' := replay cs s in
  (forall before,
     fst (QuizService.getAllQuizzes s) = inr before ->
     exists added, fst (QuizService.getAllQuizzes s') = inr (before ++ added))
  /\ (forall quizId before,
        fst (QuizService.getQuestions quizId s) = inr before ->
        exists added, fst (QuizService.getQuestions quizId s') = inr (before ++ added)).
Proof.
  intros s'. destruct (grows_replay cs s) as [[aq Hq] [az Hz]]. fold s' in Hq, Hz.
  split.
  - intros before Hb. exists az.
    unfold QuizService.getAllQuizzes, bind, read_quizzes, ret in *. simpl in *.
    injection Hb as <-. exact (f_equal inr Hz).
  - intros quizId before Hb.
    destruct (quiz_known_dec s quizId) as [Hk|Hk];
      [|rewrite (getQuestions_missing s quizId Hk) in Hb; discriminate].
    rewrite (getQuestions_found s quizId Hk) in Hb. simpl in Hb. injection Hb as <-.
    pose proof (quiz_ids_listing s s' az Hz quizId Hk) as Hk'.
    rewrite (getQuestions_found s' quizId Hk'). simpl.
    exists (List.map QuizService.view (filter (QuizService.belongs quizId) aq)).
    rewrite Hq, filter_app, map_app. reflexivity.
Qed.

Lemma reads_only_grow_witness :
  exists added,
    fst (QuizService.getQuestions "quiz-1" (replay two_quiz_run empty))
    = inr ([[("id", PStr "question-1"); ("text", PStr "What is 2+2?");
             ("options", POptions two_plus_two)]] ++ added).
Proof.
  destruct (reads_only_grow
              [AddQuestion "question-2" "quiz-1" "What is 3+3?"
                 [Opt.mk "x" "5"; Opt.mk "y" "6"] "y";
               CreateQuiz "quiz-2" "History";
               AddQuestion "question-3" "quiz-2" "Who built it?"
                 [Opt.mk "p" "Pharaoh"; Opt.mk "q" "Queen"] "p"]
              math_store) as [_ Hq].
  apply (Hq "quiz-1"). reflexivity.
Defined.

(** ** What every stored question satisfies *)

(** X8. The two checks of [addQuestion] hold of every stored question, in
    every reachable store and whatever the callers pass: its
    [correctOptionId] is the id of one of its options (so it has an option),
    and its [quizId] is the id of a stored quiz. *)
Theorem stored_questions_checked (pre : call -> Prop) (s : Store) :
  reachable pre s ->
  forall q, In q (questions s) ->
    In (Question.correctOptionId q) (List.map Opt.id (Question.options q))
    /\ Question.options q <> []
    /\ exists quiz, In quiz (quizzes s) /\ Quiz.id quiz = Question.quizId q.
Proof.
  intros Hr q Hq. split; [|split].
  - revert q Hq. apply (reachable_questions pre
      (fun q => In (Question.correctOptionId q) (List.map Opt.id (Question.options q))));
      [|exact Hr].
    intros uuid quizId text options cid _ Hc. exact Hc.
  - assert (Hc : In (Question.correctOptionId q) (List.map Opt.id (Question.options q))).
    { revert q Hq. apply (reachable_questions pre
        (fun q => In (Question.correctOptionId q) (List.map Opt.id (Question.options q))));
        [|exact Hr].
      intros uuid quizId text options cid _ Hc. exact Hc. }
    intros E. rewrite E in Hc. exact Hc.
  - pose proof (owner_exists s (reachable_consistent pre s Hr) q Hq) as Hk.
    unfold quiz_ids in Hk. apply in_map_iff in Hk. destruct Hk as [quiz [E HIn]].
    exists quiz. auto.
Qed.

Lemma stored_questions_checked_witness :
  In "b" (List.map Opt.id two_plus_two).
Proof.
  apply (stored_questions_checked careful math_store math_store_reachable
           (Question.mk "question-1" "quiz-1" "What is 2+2?" two_plus_two "b")).
  left. reflexivity.
Defined.

Lemma NoDup_map_injective {A B} (f : A -> B) (l : list A) (x y : A) :
  NoDup (List.map f l) -> In x l -> In y l -> f x = f y -> x = y.
Proof.
  induction l as [|z l IH]; simpl; [intros _ []|].
  intros HND Hx Hy E. apply NoDup_cons_iff in HND. destruct HND as [Hz HND].
  destruct Hx as [<-|Hx], Hy as [<-|Hy].
  - reflexivity.
  - exfalso. apply Hz. rewrite E. apply in_map. exact Hy.
  - exfalso. apply Hz. rewrite <- E. apply in_map. exact Hx.
  - exact (IH HND Hx Hy E).
Qed.

(** X9. In a reachable store every stored question is served by exactly one
    quiz: [getQuestions] of its own [quizId] returns and contains its
    [{id, text, options}], and every object that [getQuestions] of another
    quiz id returns has an [id] different from the question's. *)
Theorem question_served_by_its_quiz (pre : call -> Prop) (s : Store) (q : Question.t) :
  reachable pre s ->
  In q (questions s) ->
  (exists views,
      QuizService.getQuestions (Question.quizId q) s = (inr views, s)
      /\ In [("id", PStr (Question.id q));
             ("text", PStr (Question.text q));
             ("options", POptions (Question.options q))] views)
  /\ (forall other views o,
        other <> Question.quizId q ->
        fst (QuizService.getQuestions other s) = inr views ->
        In o views ->
        exists id, get_prop "id" o = Some (PStr id) /\ id <> Question.id q).
Proof.
  intros Hr Hq. pose proof (reachable_consistent pre s Hr) as [_ HN HO _].
  split.
  - exists (List.map QuizService.view
              (filter (QuizService.belongs (Question.quizId q)) (questions s))).
    split.
    + apply getQuestions_found. exact (HO q Hq).
    + change [("id", PStr (Question.id q)); ("text", PStr (Question.text q));
              ("options", POptions (Question.options q))] with (QuizService.view q).
      apply in_map. apply filter_In. split; [exact Hq|]. apply String.eqb_refl.
  - intros other views o Hne Hv Ho.
    destruct (quiz_known_dec s other) as [Hk|Hk];
      [|rewrite (getQuestions_missing s other Hk) in Hv; discriminate].
    rewrite (getQuestions_found s other Hk) in Hv. simpl in Hv. injection Hv as <-.
    apply in_map_iff in Ho. destruct Ho as [q' [<- Hq']].
    apply filter_In in Hq'. destruct Hq' as [Hq' Hb].
    exists (Question.id q'). split; [reflexivity|].
    intros Hid.
    pose proof (NoDup_map_injective Question.id (questions s) q' q HN Hq' Hq Hid) as ->.
    unfold QuizService.belongs in Hb. apply String.eqb_eq in Hb.
    exact (Hne (eq_sym Hb)).
Qed.

Lemma question_served_by_its_quiz_witness :
  exists views,
    QuizService.getQuestions "quiz-1" math_store = (inr views, math_store)
    /\ In [("id", PStr "question-1");
           ("text", PStr "What is 2+2?");
           ("options", POptions two_plus_two)] views.
Proof.
  apply (question_served_by_its_quiz careful math_store
           (Question.mk "question-1" "quiz-1" "What is 2+2?" two_plus_two "b")
           math_store_reachable).
  left. reflexivity.
Defined.

(** * The request handlers *)

(** ** GET /quizzes/:quizId/questions *)

(** X13. [QuizController.getQuestions] answers 404 "Quiz not found" exactly
    when no quiz has that id and 200 otherwise, with the array that the
    service returns; no object of that array has a [correctOptionId]
    property; the store is never changed. *)
Theorem handler_getQuestions (s : Store) (quizId : string) :
  let run := QuizController.getQuestions quizId s in
  snd run = s
  /\ (~ In quizId (quiz_ids s) <->
      fst run = {| QuizController.code := 404;
                   QuizController.sent := QuizController.JError "Quiz not found" |})
  /\ (In quizId (quiz_ids s) <->
      exists views,
        fst run = {| QuizController.code := 200;
                     QuizController.sent := QuizController.JArray views |}
        /\ fst (QuizService.getQuestions quizId s) = inr views)
  /\ (forall views o,
        QuizController.sent (fst run) = QuizController.JArray views ->
        In o views -> get_prop "correctOptionId" o = None).
Proof.
  cbv zeta. unfold QuizController.getQuestions.
  destruct (quiz_known_dec s quizId) as [Hk|Hk].
  - rewrite (getQuestions_found s quizId Hk). simpl.
    split; [reflexivity | split; [|split]].
    + split; [intros H; contradiction | intros H; discriminate].
    + split; [intros _; eexists; split; reflexivity | intros _; exact Hk].
    + intros views o E Ho. injection E as <-.
      apply in_map_iff in Ho. destruct Ho as [q [<- _]]. reflexivity.
  - rewrite (getQuestions_missing s quizId Hk). simpl.
    split; [reflexivity | split; [|split]].
    + split; [reflexivity | intros _; exact Hk].
    + split; [intros H; contradiction | intros [views [H _]]; discriminate].
    + intros views o E. discriminate.
Qed.

Lemma handler_getQuestions_witness :
  fst (QuizController.getQuestions "quiz-9" math_store)
  = {| QuizController.code := 404;
       QuizController.sent := QuizController.JError "Quiz not found" |}.
Proof.
  apply (handler_getQuestions math_store "quiz-9").
  vm_compute. intros [E|[]]. discriminate.
Defined.

(** ** Quizzes do not interfere *)

(** X18. An [addQuestion] to one quiz, whether it succeeds or throws, does
    not change what [submitAnswers] returns or throws for any other quiz id,
    whatever the answers. *)
Theorem submitAnswers_isolated
    (s : Store) (uuid quizId text : string) (options : list Opt.t) (correctOptionId : string)
    (other : string) (answers : list Answer.t) :
  other <> quizId ->
  fst (QuizService.submitAnswers other answers
         (snd (QuizService.addQuestion uuid quizId text options correctOptionId s)))
  = fst (QuizService.submitAnswers other answers s).
Proof.
  intros Hne.
  destruct (quiz_known_dec s quizId) as [Hk|Hk];
    [|rewrite (addQuestion_no_quiz s uuid quizId text options correctOptionId Hk);
      reflexivity].
  destruct (option_known_dec options correctOptionId) as [Ho|Ho];
    [|rewrite (addQuestion_no_option s uuid quizId text options correctOptionId Hk Ho);
      reflexivity].
  rewrite (addQuestion_stored s uuid quizId text options correctOptionId Hk Ho).
  set (s' := snd _).
  assert (Hids : quiz_ids s' = quiz_ids s).
  { unfold s', quiz_ids. simpl. apply update_first_ids. }
  assert (Hqq : filter (QuizService.belongs other) (questions s')
                = filter (QuizService.belongs other) (questions s)).
  { unfold s'. simpl. rewrite filter_belongs_snoc. simpl.
    destruct (String.eqb_spec quizId other) as [E|E];
      [exfalso; exact (Hne (eq_sym E)) | apply app_nil_r]. }
  destruct (quiz_known_dec s other) as [Hx|Hx].
  - assert (Hx' : In other (quiz_ids s')) by (rewrite Hids; exact Hx).
    rewrite (submitAnswers_found s other answers Hx),
            (submitAnswers_found s' other answers Hx'). cbv zeta.
    rewrite Hqq. destruct (Nat.eqb _ _); reflexivity.
  - assert (Hx' : ~ In other (quiz_ids s')) by (rewrite Hids; exact Hx).
    rewrite (submitAnswers_missing s other answers Hx),
            (submitAnswers_missing s' other answers Hx'). reflexivity.
Qed.

Lemma submitAnswers_isolated_witness :
  fst (QuizService.submitAnswers "quiz-1" [Answer.mk "question-1" "b"]
         (snd (QuizService.addQuestion "question-4" "quiz-2" "When?"
                 [Opt.mk "p" "Then"; Opt.mk "q" "Now"] "q" two_quiz_store)))
  = fst (QuizService.submitAnswers "quiz-1" [Answer.mk "question-1" "b"] two_quiz_store).
Proof.
  apply (submitAnswers_isolated two_quiz_store "question-4" "quiz-2" "When?"
           [Opt.mk "p" "Then"; Opt.mk "q" "Now"] "q" "quiz-1").
  discriminate.
Defined.

(** ** The list of quizzes *)




(** * The handlers on request bodies *)

(** ** Property reads *)

Lemma get_none (v : Js.value) (key : string) : Js.get v key = None <-> nullish v.
Proof.
  unfold nullish. destruct v; simpl; split; intros H; try discriminate; auto;
    destruct H as [H|H]; discriminate.
Qed.

Lemma get_some (v : Js.value) (key : string) :
  ~ nullish v -> exists x, Js.get v key = Some x.
Proof.
  intros H. destruct (Js.get v key) as [x|] eqn:E; [exists x; reflexivity|].
  exfalso. apply H. apply (get_none v key). exact E.
Qed.

Lemma nullish_dec (v : Js.value) : {nullish v} + {~ nullish v}.
Proof.
  unfold nullish. destruct v; try (right; intros [H|H]; discriminate); left; auto.
Qed.

Lemma strict_eq_undefined (v : Js.value) :
  Js.strict_eq Js.Undefined v = true -> v = Js.Undefined.
Proof. destruct v; simpl; intros H; try discriminate; reflexivity. Qed.

(** ** The scan of the options *)

Lemma passed_over_nil (cid : Js.value) : passed_over cid [].
Proof. intros opt []. Qed.

Lemma passed_over_cons (cid opt : Js.value) (rest : list Js.value) (id : Js.value) :
  Js.get opt "id" = Some id -> Js.strict_eq id cid = false ->
  passed_over cid rest -> passed_over cid (opt :: rest).
Proof.
  intros Hg He Hr o [<-|Ho]; [exists id; auto | exact (Hr o Ho)].
Qed.

Lemma find_option_cases (cid : Js.value) (options : list Js.value) :
  match Raw.QuizService.find_option cid options with
  | inr (Some opt) =>
      exists before id after,
        options = before ++ opt :: after
        /\ passed_over cid before
        /\ Js.get opt "id" = Some id
        /\ Js.strict_eq id cid = true
  | inr None => passed_over cid options
  | inl e => e = Raw.TypeError /\ trips_over cid options
  end.
Proof.
  induction options as [|opt rest IH]; simpl.
  - apply passed_over_nil.
  - destruct (Js.get opt "id") as [id|] eqn:Hg.
    + destruct (Js.strict_eq id cid) eqn:He.
      * exists [], id, rest. simpl. repeat split; auto. apply passed_over_nil.
      * destruct (Raw.QuizService.find_option cid rest) as [e|[found|]].
        -- destruct IH as [-> [before [o [after [El [Hp Hn]]]]]]. split; [reflexivity|].
           exists (opt :: before), o, after. simpl. rewrite El. repeat split; auto.
           exact (passed_over_cons cid opt before id Hg He Hp).
        -- destruct IH as [before [i [after [El [Hp [Hi Hs]]]]]].
           exists (opt :: before), i, after. simpl. rewrite El. repeat split; auto.
           exact (passed_over_cons cid opt before id Hg He Hp).
        -- exact (passed_over_cons cid opt rest id Hg He IH).
    + split; [reflexivity|]. exists [], opt, rest. simpl. repeat split.
      * apply passed_over_nil.
      * apply (get_none opt "id"). exact Hg.
Qed.

Lemma find_option_skip (cid : Js.value) (before rest : list Js.value) :
  passed_over cid before ->
  Raw.QuizService.find_option cid (before ++ rest) = Raw.QuizService.find_option cid rest.
Proof.
  induction before as [|o before IH]; simpl; intros Hp; [reflexivity|].
  destruct (Hp o (or_introl eq_refl)) as [id [Hg He]]. rewrite Hg, He.
  apply IH. intros o' Ho'. apply Hp. right. exact Ho'.
Qed.

Lemma find_option_found (cid : Js.value) (options : list Js.value) :
  names_option cid options ->
  exists opt id, Raw.QuizService.find_option cid options = inr (Some opt)
                 /\ Js.get opt "id" = Some id /\ Js.strict_eq id cid = true.
Proof.
  intros [before [opt [id [after [-> [Hp [Hg He]]]]]]].
  exists opt, id. rewrite (find_option_skip cid before _ Hp). simpl.
  rewrite Hg, He. auto.
Qed.

Lemma find_option_trips (cid : Js.value) (options : list Js.value) :
  trips_over cid options ->
  Raw.QuizService.find_option cid options = inl Raw.TypeError.
Proof.
  intros [before [opt [after [-> [Hp Hn]]]]].
  rewrite (find_option_skip cid before _ Hp). simpl.
  rewrite (proj2 (get_none opt "id") Hn). reflexivity.
Qed.

Lemma find_option_passed (cid : Js.value) (options : list Js.value) :
  passed_over cid options ->
  Raw.QuizService.find_option cid options = inr None.
Proof.
  intros Hp. rewrite <- (app_nil_r options). rewrite (find_option_skip cid options [] Hp).
  reflexivity.
Qed.

(** An option found for a truthy [correctOptionId] is an object, hence truthy. *)
Lemma found_option_truthy (cid opt id : Js.value) :
  Js.truthy cid = true ->
  Js.get opt "id" = Some id -> Js.strict_eq id cid = true ->
  Js.truthy opt = true.
Proof.
  intros Hc Hg He.
  destruct opt; simpl in *; try discriminate; try reflexivity;
    injection Hg as <-; apply strict_eq_undefined in He; subst cid; discriminate.
Qed.

Lemma raw_quiz_known_dec (s : Raw.Store) (quizId : string) :
  {In quizId (List.map Raw.Quiz.id (Raw.quizzes s))}
  + {~ In quizId (List.map Raw.Quiz.id (Raw.quizzes s))}.
Proof. apply in_dec, string_dec. Qed.

Lemma raw_find_quiz_some (s : Raw.Store) (quizId : string) :
  In quizId (List.map Raw.Quiz.id (Raw.quizzes s)) ->
  exists quiz, find (Raw.has_id quizId) (Raw.quizzes s) = Some quiz.
Proof.
  induction (Raw.quizzes s) as [|q qs IH]; simpl; [intros []|].
  intros H. unfold Raw.has_id at 1.
  destruct (String.eqb_spec (Raw.Quiz.id q) quizId) as [E|E].
  - exists q. reflexivity.
  - destruct H as [H|H]; [contradiction | auto].
Qed.

Lemma raw_find_quiz_none (s : Raw.Store) (quizId : string) :
  ~ In quizId (List.map Raw.Quiz.id (Raw.quizzes s)) ->
  find (Raw.has_id quizId) (Raw.quizzes s) = None.
Proof.
  induction (Raw.quizzes s) as [|q qs IH]; simpl; [reflexivity|].
  intros H. unfold Raw.has_id at 1.
  destruct (String.eqb_spec (Raw.Quiz.id q) quizId) as [E|E].
  - exfalso. apply H. left. exact E.
  - apply IH. intros HIn. apply H. right. exact HIn.
Qed.

Lemma scan_cases (cid : Js.value) (options : list Js.value) :
  names_option cid options \/ trips_over cid options \/ passed_over cid options.
Proof.
  pose proof (find_option_cases cid options) as H.
  destruct (Raw.QuizService.find_option cid options) as [e|[opt|]].
  - right. left. exact (proj2 H).
  - left. destruct H as [before [id [after [El [Hp [Hg He]]]]]].
    exists before, opt, id, after. auto.
  - right. right. exact H.
Qed.

(** ** addQuestion on values *)

Section RawAddQuestion.

Variable s : Raw.Store.
Variables uuid quizId : string.
Variables text correctOptionId : Js.value.
Variable items : list Js.value.

Let call := Raw.QuizService.addQuestion uuid quizId text items correctOptionId s.

Lemma raw_addQuestion_no_quiz :
  ~ In quizId (List.map Raw.Quiz.id (Raw.quizzes s)) ->
  call = (inl (Raw.Thrown NotFound), s).
Proof.
  intros H. unfold call, Raw.QuizService.addQuestion.
  rewrite (raw_find_quiz_none s quizId H). reflexivity.
Qed.

Lemma raw_addQuestion_trips :
  In quizId (List.map Raw.Quiz.id (Raw.quizzes s)) ->
  trips_over correctOptionId items ->
  call = (inl Raw.TypeError, s).
Proof.
  intros H Ht. destruct (raw_find_quiz_some s quizId H) as [quiz Hf].
  unfold call, Raw.QuizService.addQuestion.
  rewrite Hf, (find_option_trips correctOptionId items Ht). reflexivity.
Qed.

Lemma raw_addQuestion_no_option :
  In quizId (List.map Raw.Quiz.id (Raw.quizzes s)) ->
  passed_over correctOptionId items ->
  call = (inl (Raw.Thrown InvalidReference), s).
Proof.
  intros H Hp. destruct (raw_find_quiz_some s quizId H) as [quiz Hf].
  unfold call, Raw.QuizService.addQuestion.
  rewrite Hf, (find_option_passed correctOptionId items Hp). reflexivity.
Qed.

Lemma raw_addQuestion_stored :
  In quizId (List.map Raw.Quiz.id (Raw.quizzes s)) ->
  Js.truthy correctOptionId = true ->
  names_option correctOptionId items ->
  call = (inr (Raw.Question.mk uuid quizId text items correctOptionId),
          {| Raw.quizzes := update_first (Raw.has_id quizId) (Raw.push_id uuid) (Raw.quizzes s);
             Raw.questions := Raw.questions s
                              ++ [Raw.Question.mk uuid quizId text items correctOptionId] |}).
Proof.
  intros H Hc Hn. destruct (raw_find_quiz_some s quizId H) as [quiz Hf].
  destruct (find_option_found correctOptionId items Hn) as [opt [id [Ho [Hg He]]]].
  unfold call, Raw.QuizService.addQuestion.
  rewrite Hf, Ho, (found_option_truthy correctOptionId opt id Hc Hg He). reflexivity.
Qed.

End RawAddQuestion.

Lemma raw_update_first_ids (quizId uuid : string) (l : list Raw.Quiz.t) :
  List.map Raw.Quiz.id (update_first (Raw.has_id quizId) (Raw.push_id uuid) l)
  = List.map Raw.Quiz.id l.
Proof.
  induction l as [|q l IH]; simpl; [reflexivity|].
  destruct (Raw.has_id quizId q); simpl; [reflexivity | rewrite IH; reflexivity].
Qed.

(** ** POST /quizzes/:quizId/questions *)

Section AddQuestionHandler.

Variable s : Raw.Store.
Variables uuid quizId : string.
Variable body : Js.value.

Let run := Raw.QuizController.addQuestion uuid quizId body s.

Lemma addQuestion_handler_no_body :
  nullish body -> run = (Raw.QuizController.caught 400 Raw.TypeError, s).
Proof.
  intros H. unfold run, Raw.QuizController.addQuestion.
  rewrite (proj2 (get_none body "text") H). reflexivity.
Qed.

Lemma addQuestion_handler_fields :
  ~ nullish body ->
  exists text options cid,
    Js.get body "text" = Some text
    /\ Js.get body "options" = Some options
    /\ Js.get body "correctOptionId" = Some cid.
Proof.
  intros H.
  destruct (get_some body "text" H) as [text Ht].
  destruct (get_some body "options" H) as [options Ho].
  destruct (get_some body "correctOptionId" H) as [cid Hc].
  exists text, options, cid. auto.
Qed.

Variables text options cid : Js.value.
Hypothesis Htext : Js.get body "text" = Some text.
Hypothesis Hoptions : Js.get body "options" = Some options.
Hypothesis Hcid : Js.get body "correctOptionId" = Some cid.

Lemma addQuestion_handler_missing :
  Js.truthy text = false \/ Js.truthy options = false \/ Js.truthy cid = false ->
  run = (Raw.QuizController.failure 400 "Text, options, and correctOptionId are required", s).
Proof.
  intros H. unfold run, Raw.QuizController.addQuestion. rewrite Htext, Hoptions, Hcid.
  assert (E : negb (Js.truthy text) || negb (Js.truthy options) || negb (Js.truthy cid) = true).
  { destruct (Js.truthy text), (Js.truthy options), (Js.truthy cid); simpl;
      try reflexivity; destruct H as [H|[H|H]]; discriminate. }
  rewrite E. reflexivity.
Qed.

Lemma addQuestion_handler_not_array :
  Js.truthy text = true -> Js.truthy options = true -> Js.truthy cid = true ->
  (forall items, options = Js.Arr items -> List.length items < 2) ->
  run = (Raw.QuizController.failure 400 "Options must be an array with at least 2 items", s).
Proof.
  intros Ht Ho Hc Hl. unfold run, Raw.QuizController.addQuestion.
  rewrite Htext, Hoptions, Hcid, Ht, Ho, Hc. simpl.
  destruct options as [| | | | |items|]; try reflexivity.
  specialize (Hl items eq_refl). apply Nat.ltb_lt in Hl. rewrite Hl. reflexivity.
Qed.

Lemma addQuestion_handler_service (items : list Js.value) :
  Js.truthy text = true -> options = Js.Arr items -> Js.truthy cid = true ->
  2 <= List.length items ->
  run = match Raw.QuizService.addQuestion uuid quizId text items cid s with
        | (inr question, s') =>
            ({| Raw.code := 201;
                Raw.sent := Raw.Json (Js.Obj [("id", Js.Str (Raw.Question.id question));
                                              ("text", Raw.Question.text question);
                                              ("options",
                                               Js.Arr (Raw.Question.options question))]) |},
             s')
        | (inl error, s') => (Raw.QuizController.caught 400 error, s')
        end.
Proof.
  intros Ht Ho Hc Hl. unfold run, Raw.QuizController.addQuestion.
  rewrite Htext, Hoptions, Hcid, Ht, Hc, Ho. simpl.
  apply Nat.ltb_ge in Hl. rewrite Hl. reflexivity.
Qed.

End AddQuestionHandler.

Lemma raw_quiz_known (s : Raw.Store) (quizId : string) :
  In quizId (List.map Raw.Quiz.id (Raw.quizzes s))
  <-> exists quiz, In quiz (Raw.quizzes s) /\ Raw.Quiz.id quiz = quizId.
Proof.
  rewrite in_map_iff. split; intros [quiz [H1 H2]]; exists quiz; auto.
Qed.

Lemma addQuestion_request_created
    (s : Raw.Store) (uuid quizId : string) (body text : Js.value)
    (items : list Js.value) (cid : Js.value) :
  creatable s quizId body text items cid ->
  Raw.QuizController.addQuestion uuid quizId body s
  = ({| Raw.code := 201;
        Raw.sent := Raw.Json (Js.Obj [("id", Js.Str uuid); ("text", text);
                                      ("options", Js.Arr items)]) |},
     {| Raw.quizzes := update_first (Raw.has_id quizId) (Raw.push_id uuid) (Raw.quizzes s);
        Raw.questions := Raw.questions s ++ [Raw.Question.mk uuid quizId text items cid] |}).
Proof.
  intros [Ht [Ho [Hc [Tt [Tc [Hl [Hk Hn]]]]]]]. apply raw_quiz_known in Hk.
  rewrite (addQuestion_handler_service s uuid quizId body text (Js.Arr items) cid
             Ht Ho Hc items Tt eq_refl Tc Hl).
  rewrite (raw_addQuestion_stored s uuid quizId text cid items Hk Tc Hn). reflexivity.
Qed.

Lemma addQuestion_request_refused (s : Raw.Store) (uuid quizId : string) (body : Js.value) :
  (Raw.code (fst (Raw.QuizController.addQuestion uuid quizId body s)) = 400
   /\ snd (Raw.QuizController.addQuestion uuid quizId body s) = s)
  \/ exists text items cid, creatable s quizId body text items cid.
Proof.
  destruct (nullish_dec body) as [Hb|Hb].
  { left. rewrite (addQuestion_handler_no_body s uuid quizId body Hb). auto. }
  destruct (addQuestion_handler_fields body Hb) as [text [options [cid [Ht [Ho Hc]]]]].
  destruct (Js.truthy text) eqn:Tt.
  2:{ left. rewrite (addQuestion_handler_missing s uuid quizId body text options cid
                       Ht Ho Hc (or_introl Tt)). auto. }
  destruct (Js.truthy options) eqn:To.
  2:{ left. rewrite (addQuestion_handler_missing s uuid quizId body text options cid
                       Ht Ho Hc (or_intror (or_introl To))). auto. }
  destruct (Js.truthy cid) eqn:Tc.
  2:{ left. rewrite (addQuestion_handler_missing s uuid quizId body text options cid
                       Ht Ho Hc (or_intror (or_intror Tc))). auto. }
  assert (Hbad : (forall items, options = Js.Arr items -> List.length items < 2) ->
                 Raw.code (fst (Raw.QuizController.addQuestion uuid quizId body s)) = 400
                 /\ snd (Raw.QuizController.addQuestion uuid quizId body s) = s).
  { intros H. rewrite (addQuestion_handler_not_array s uuid quizId body text options cid
                         Ht Ho Hc Tt To Tc H). auto. }
  destruct options as [| | | | |items|]; try (left; apply Hbad; intros; discriminate).
  destruct (le_lt_dec 2 (List.length items)) as [Hl|Hl].
  2:{ left. apply Hbad. intros items' E. injection E as <-. exact Hl. }
  rewrite (addQuestion_handler_service s uuid quizId body text (Js.Arr items) cid
             Ht Ho Hc items Tt eq_refl Tc Hl).
  destruct (raw_quiz_known_dec s quizId) as [Hk|Hk].
  2:{ left. rewrite (raw_addQuestion_no_quiz s uuid quizId text cid items Hk). auto. }
  destruct (scan_cases cid items) as [Hn|[Hn|Hn]].
  - right. exists text, items, cid. unfold creatable. rewrite <- raw_quiz_known.
    repeat split; auto.
  - left. rewrite (raw_addQuestion_trips s uuid quizId text cid items Hk Hn). auto.
  - left. rewrite (raw_addQuestion_no_option s uuid quizId text cid items Hk Hn). auto.
Qed.

(** X10. [QuizController.addQuestion], for any request body, answers 201 or
    400.  It answers 201 exactly when the body is an object whose [text] and
    [correctOptionId] are truthy and whose [options] is an array of at least
    two elements, the quiz exists, and some option has [correctOptionId] as
    [id] with no [undefined] or [null] element before it; then the reply is
    [{id, text, options}] as given and the question is stored.  On 400 the
    store is unchanged. *)
Theorem addQuestion_request_status
    (s : Raw.Store) (uuid quizId : string) (body : Js.value) :
  let run := Raw.QuizController.addQuestion uuid quizId body s in
  (Raw.code (fst run) = 201 \/ Raw.code (fst run) = 400)
  /\ (Raw.code (fst run) = 201
      <-> exists text items cid,
            Js.get body "text" = Some text
            /\ Js.get body "options" = Some (Js.Arr items)
            /\ Js.get body "correctOptionId" = Some cid
            /\ Js.truthy text = true
            /\ Js.truthy cid = true
            /\ 2 <= List.length items
            /\ (exists quiz, In quiz (Raw.quizzes s) /\ Raw.Quiz.id quiz = quizId)
            /\ exists before opt id after,
                 items = before ++ opt :: after
                 /\ (forall o, In o before ->
                       exists i, Js.get o "id" = Some i /\ Js.strict_eq i cid = false)
                 /\ Js.get opt "id" = Some id
                 /\ Js.strict_eq id cid = true)
  /\ (forall text items cid,
        Js.get body "text" = Some text ->
        Js.get body "options" = Some (Js.Arr items) ->
        Js.get body "correctOptionId" = Some cid ->
        Raw.code (fst run) = 201 ->
        fst run = {| Raw.code := 201;
                     Raw.sent := Raw.Json (Js.Obj [("id", Js.Str uuid); ("text", text);
                                                   ("options", Js.Arr items)]) |}
        /\ Raw.questions (snd run)
           = Raw.questions s ++ [Raw.Question.mk uuid quizId text items cid]
        /\ List.map Raw.Quiz.id (Raw.quizzes (snd run)) = List.map Raw.Quiz.id (Raw.quizzes s))
  /\ (Raw.code (fst run) = 400 -> snd run = s).
Proof.
  cbv zeta.
  destruct (addQuestion_request_refused s uuid quizId body)
    as [[H400 Hs]|[text [items [cid Hc]]]].
  - split; [right; exact H400 | split; [|split]].
    + split; [rewrite H400; discriminate|].
      intros [text [items [cid Hc]]].
      rewrite (addQuestion_request_created s uuid quizId body text items cid Hc) in H400.
      discriminate.
    + intros text items cid _ _ _ H. rewrite H400 in H. discriminate.
    + intros _. exact Hs.
  - pose proof (addQuestion_request_created s uuid quizId body text items cid Hc) as Hrun.
    rewrite Hrun. simpl. split; [left; reflexivity | split; [|split]].
    + split; [intros _; exists text, items, cid; exact Hc | reflexivity].
    + intros text' items' cid' Ht Ho Hi _.
      destruct Hc as [Ht' [Ho' [Hi' _]]].
      rewrite Ht in Ht'. rewrite Ho in Ho'. rewrite Hi in Hi'.
      injection Ht' as <-. injection Ho' as <-. injection Hi' as <-.
      repeat split. apply raw_update_first_ids.
    + discriminate.
Qed.

Lemma addQuestion_request_status_witness :
  Raw.code
    (fst (Raw.QuizController.addQuestion "question-2" "quiz-1"
            (question_body "What is 3+3?" two_plus_two "a") (js_store math_store))) = 201.
Proof.
  apply (addQuestion_request_status (js_store math_store) "question-2" "quiz-1"
           (question_body "What is 3+3?" two_plus_two "a")).
  exists (Js.Str "What is 3+3?"), (List.map js_option two_plus_two), (Js.Str "a").
  repeat split.
  - simpl. lia.
  - exists (js_quiz (Quiz.mk "quiz-1" "Math Quiz" ["question-1"])).
    split; [left; reflexivity | reflexivity].
  - exists [], (js_option (Opt.mk "a" "3")), (Js.Str "a"), [js_option (Opt.mk "b" "4")].
    repeat split. intros o [].
Defined.

(** X11. The refusals of [QuizController.addQuestion], all with status 400
    and the store unchanged, in the order they are decided: a body that is
    [undefined] or [null] (the engine's TypeError message); a falsy [text],
    [options] or [correctOptionId]; [options] that is not an array of at
    least two elements; a quiz id that does not resolve ("Quiz not found");
    an [undefined] or [null] option met before a match (the engine's
    TypeError message); no option with that [id] ("Invalid correct option
    ID"). *)
Theorem addQuestion_request_errors
    (s : Raw.Store) (uuid quizId : string) (body : Js.value) :
  let run := Raw.QuizController.addQuestion uuid quizId body s in
  let refused (error : Raw.said) :=
    run = ({| Raw.code := 400; Raw.sent := Raw.Failure error |}, s) in
  (body = Js.Undefined \/ body = Js.Null -> refused Raw.EngineMessage)
  /\ (forall text options cid,
        Js.get body "text" = Some text ->
        Js.get body "options" = Some options ->
        Js.get body "correctOptionId" = Some cid ->
        (Js.truthy text = false \/ Js.truthy options = false \/ Js.truthy cid = false ->
         refused (Raw.Message "Text, options, and correctOptionId are required"))
        /\ (Js.truthy text = true -> Js.truthy options = true -> Js.truthy cid = true ->
            (forall items, options = Js.Arr items -> List.length items < 2) ->
            refused (Raw.Message "Options must be an array with at least 2 items")))
  /\ (forall text items cid,
        Js.get body "text" = Some text ->
        Js.get body "options" = Some (Js.Arr items) ->
        Js.get body "correctOptionId" = Some cid ->
        Js.truthy text = true -> Js.truthy cid = true -> 2 <= List.length items ->
        ((forall quiz, In quiz (Raw.quizzes s) -> Raw.Quiz.id quiz <> quizId) ->
         refused (Raw.Message "Quiz not found"))
        /\ ((exists quiz, In quiz (Raw.quizzes s) /\ Raw.Quiz.id quiz = quizId) ->
            (exists before opt after,
                items = before ++ opt :: after
                /\ (forall o, In o before ->
                      exists i, Js.get o "id" = Some i /\ Js.strict_eq i cid = false)
                /\ (opt = Js.Undefined \/ opt = Js.Null)) ->
            refused Raw.EngineMessage)
        /\ ((exists quiz, In quiz (Raw.quizzes s) /\ Raw.Quiz.id quiz = quizId) ->
            (forall o, In o items ->
               exists i, Js.get o "id" = Some i /\ Js.strict_eq i cid = false) ->
            refused (Raw.Message "Invalid correct option ID"))).
Proof.
  cbv zeta. split; [|split].
  - intros H. exact (addQuestion_handler_no_body s uuid quizId body H).
  - intros text options cid Ht Ho Hc. split.
    + intros H.
      exact (addQuestion_handler_missing s uuid quizId body text options cid Ht Ho Hc H).
    + intros Tt To Tc H.
      exact (addQuestion_handler_not_array s uuid quizId body text options cid
               Ht Ho Hc Tt To Tc H).
  - intros text items cid Ht Ho Hc Tt Tc Hl.
    rewrite (addQuestion_handler_service s uuid quizId body text (Js.Arr items) cid
               Ht Ho Hc items Tt eq_refl Tc Hl).
    split; [|split].
    + intros Hno.
      rewrite (raw_addQuestion_no_quiz s uuid quizId text cid items); [reflexivity|].
      intros Hk. apply raw_quiz_known in Hk. destruct Hk as [quiz [HIn E]].
      exact (Hno quiz HIn E).
    + intros Hk Htrip. apply raw_quiz_known in Hk.
      rewrite (raw_addQuestion_trips s uuid quizId text cid items Hk Htrip). reflexivity.
    + intros Hk Hpass. apply raw_quiz_known in Hk.
      rewrite (raw_addQuestion_no_option s uuid quizId text cid items Hk Hpass). reflexivity.
Qed.

Lemma addQuestion_request_errors_witness :
  Raw.QuizController.addQuestion "question-2" "quiz-1"
    (Js.Obj [("text", Js.Str "What is 3+3?");
             ("options", Js.Arr [Js.Null; js_option (Opt.mk "a" "3");
                                 js_option (Opt.mk "b" "4")]);
             ("correctOptionId", Js.Str "a")])
    (js_store math_store)
  = ({| Raw.code := 400; Raw.sent := Raw.Failure Raw.EngineMessage |}, js_store math_store).
Proof.
  destruct (addQuestion_request_errors (js_store math_store) "question-2" "quiz-1"
              (Js.Obj [("text", Js.Str "What is 3+3?");
                       ("options", Js.Arr [Js.Null; js_option (Opt.mk "a" "3");
                                           js_option (Opt.mk "b" "4")]);
                       ("correctOptionId", Js.Str "a")])) as [_ [_ H]].
  assert (Hl : 2 <= List.length [Js.Null; js_option (Opt.mk "a" "3");
                                 js_option (Opt.mk "b" "4")]) by (simpl; lia).
  destruct (H (Js.Str "What is 3+3?")
              [Js.Null; js_option (Opt.mk "a" "3"); js_option (Opt.mk "b" "4")]
              (Js.Str "a") eq_refl eq_refl eq_refl eq_refl eq_refl Hl) as [_ [Htrip _]].
  apply Htrip.
  - exists (js_quiz (Quiz.mk "quiz-1" "Math Quiz" ["question-1"])).
    split; [left; reflexivity | reflexivity].
  - exists [], Js.Null, [js_option (Opt.mk "a" "3"); js_option (Opt.mk "b" "4")].
    repeat split; [intros o [] | right; reflexivity].
Defined.

(** ** POST /quizzes *)

(** X12. [QuizController.createQuiz], for any request body: a body that is
    [undefined] or [null] is answered 500, and only such a body is; a falsy
    [title] (absent, [null], [false], [0], the empty string) is answered 400
    "Title is required"; in both cases the store is unchanged.  Any truthy
    [title], text or not, is answered 201 with [{id, title}] and stored as
    given in a new empty quiz at the end of the quiz collection. *)
Theorem createQuiz_request (s : Raw.Store) (uuid : string) (body : Js.value) :
  let run := Raw.QuizController.createQuiz uuid body s in
  (Raw.code (fst run) = 500 <-> body = Js.Undefined \/ body = Js.Null)
  /\ (body = Js.Undefined \/ body = Js.Null ->
      run = ({| Raw.code := 500; Raw.sent := Raw.Failure Raw.EngineMessage |}, s))
  /\ (forall title,
        Js.get body "title" = Some title -> Js.truthy title = false ->
        run = ({| Raw.code := 400;
                  Raw.sent := Raw.Failure (Raw.Message "Title is required") |}, s))
  /\ (forall title,
        Js.get body "title" = Some title -> Js.truthy title = true ->
        run = ({| Raw.code := 201;
                  Raw.sent := Raw.Json (Js.Obj [("id", Js.Str uuid); ("title", title)]) |},
               {| Raw.quizzes := Raw.quizzes s ++ [Raw.Quiz.mk uuid title []];
                  Raw.questions := Raw.questions s |})).
Proof.
  cbv zeta. unfold Raw.QuizController.createQuiz.
  destruct (Js.get body "title") as [title|] eqn:Hg.
  - assert (Hb : ~ nullish body).
    { intros Hn. apply (get_none body "title") in Hn. rewrite Hn in Hg. discriminate. }
    destruct (Js.truthy title) eqn:Tt; simpl.
    + split; [split; [discriminate | intros H; contradiction] | split; [|split]].
      * intros H. contradiction.
      * intros title' E T. injection E as <-. rewrite Tt in T. discriminate.
      * intros title' E _. injection E as <-. reflexivity.
    + split; [split; [discriminate | intros H; contradiction] | split; [|split]].
      * intros H. contradiction.
      * intros title' E _. reflexivity.
      * intros title' E T. injection E as <-. rewrite Tt in T. discriminate.
  - apply (get_none body "title") in Hg. simpl.
    split; [split; [intros _; exact Hg | reflexivity] | split; [|split]].
    + reflexivity.
    + intros title E. discriminate.
    + intros title E. discriminate.
Qed.

Lemma createQuiz_request_witness :
  Raw.QuizController.createQuiz "quiz-1" (Js.Obj [("title", Js.Number PrimFloat.one)]) Raw.empty
  = ({| Raw.code := 201;
        Raw.sent := Raw.Json (Js.Obj [("id", Js.Str "quiz-1");
                                      ("title", Js.Number PrimFloat.one)]) |},
     {| Raw.quizzes := [Raw.Quiz.mk "quiz-1" (Js.Number PrimFloat.one) []];
        Raw.questions := [] |}).
Proof.
  apply (createQuiz_request Raw.empty "quiz-1" (Js.Obj [("title", Js.Number PrimFloat.one)])).
  - reflexivity.
  - reflexivity.
Defined.

(** ** POST /quizzes/:quizId/submit *)

Lemma raw_mark_cases (q : Raw.Question.t) (qq : list Raw.Question.t) (n : nat)
    (answer : Js.value) :
  (nullish answer /\ Raw.QuizService.mark (q :: qq) n answer = inl Raw.TypeError)
  \/ (~ nullish answer
      /\ exists m, Raw.QuizService.mark (q :: qq) n answer = inr m /\ n <= m <= S n).
Proof.
  destruct (nullish_dec answer) as [Hn|Hn].
  - left. split; [exact Hn|]. unfold Raw.QuizService.mark.
    rewrite (proj2 (get_none answer "questionId") Hn). reflexivity.
  - right. split; [exact Hn|].
    destruct (get_some answer "questionId" Hn) as [qid Hq].
    destruct (get_some answer "selectedOptionId" Hn) as [sel Hs].
    unfold Raw.QuizService.mark. rewrite Hq, Hs.
    destruct (find _ (q :: qq)) as [question|]; [|exists n; split; [reflexivity | lia]].
    destruct (Js.strict_eq _ _); eexists; split; try reflexivity; lia.
Qed.

Lemma raw_forEach_cases (q : Raw.Question.t) (qq : list Raw.Question.t)
    (answers : list Js.value) (n : nat) :
  ((exists a, In a answers /\ nullish a)
   /\ Raw.QuizService.forEach (q :: qq) answers n = inl Raw.TypeError)
  \/ ((forall a, In a answers -> ~ nullish a)
      /\ exists m, Raw.QuizService.forEach (q :: qq) answers n = inr m
                   /\ n <= m <= n + List.length answers).
Proof.
  revert n. induction answers as [|a rest IH]; intros n.
  - right. split; [intros a [] | exists n; simpl; split; [reflexivity | lia]].
  - destruct (raw_mark_cases q qq n a) as [[Hn Hm]|[Hn [m [Hm Hb]]]].
    + left. split; [exists a; split; [left; reflexivity | exact Hn]|].
      cbn [Raw.QuizService.forEach]. rewrite Hm. reflexivity.
    + cbn [Raw.QuizService.forEach]. rewrite Hm.
      destruct (IH m) as [[[b [Hb1 Hb2]] Hf]|[Hall [k [Hf Hk]]]].
      * left. split; [exists b; split; [right; exact Hb1 | exact Hb2] | exact Hf].
      * right. split.
        -- intros b [<-|Hb']; [exact Hn | exact (Hall b Hb')].
        -- exists k. split; [exact Hf | simpl; lia].
Qed.

Section SubmitHandler.

Variable s : Raw.Store.
Variable quizId : string.
Variable body : Js.value.

Let run := Raw.QuizController.submitAnswers quizId body s.
Let quizQuestions := filter (Raw.QuizService.belongs quizId) (Raw.questions s).

Lemma submit_handler_no_body :
  nullish body -> run = (Raw.QuizController.caught 400 Raw.TypeError, s).
Proof.
  intros H. unfold run, Raw.QuizController.submitAnswers.
  rewrite (proj2 (get_none body "answers") H). reflexivity.
Qed.

Lemma submit_handler_not_array (v : Js.value) :
  Js.get body "answers" = Some v -> (forall l, v <> Js.Arr l) ->
  run = (Raw.QuizController.failure 400 "Answers must be an array", s).
Proof.
  intros Hg Hv. unfold run, Raw.QuizController.submitAnswers. rewrite Hg.
  destruct v; try reflexivity. exfalso. exact (Hv items eq_refl).
Qed.

Variable answers : list Js.value.
Hypothesis Hanswers : Js.get body "answers" = Some (Js.Arr answers).

Lemma submit_handler_no_quiz :
  ~ In quizId (List.map Raw.Quiz.id (Raw.quizzes s)) ->
  run = (Raw.QuizController.caught 400 (Raw.Thrown NotFound), s).
Proof.
  intros Hk. unfold run, Raw.QuizController.submitAnswers, Raw.QuizService.submitAnswers.
  rewrite Hanswers, (raw_find_quiz_none s quizId Hk). reflexivity.
Qed.

Hypothesis Hknown : In quizId (List.map Raw.Quiz.id (Raw.quizzes s)).

Lemma submit_handler_count :
  List.length answers <> List.length quizQuestions ->
  run = (Raw.QuizController.caught 400 (Raw.Thrown ValidationError), s).
Proof.
  intros Hl. destruct (raw_find_quiz_some s quizId Hknown) as [quiz Hf].
  unfold run, Raw.QuizController.submitAnswers, Raw.QuizService.submitAnswers.
  rewrite Hanswers, Hf. cbv zeta. fold quizQuestions.
  apply Nat.eqb_neq in Hl. rewrite Hl. reflexivity.
Qed.

Lemma submit_handler_scored :
  List.length answers = List.length quizQuestions ->
  run = match Raw.QuizService.forEach quizQuestions answers 0 with
        | inl e => (Raw.QuizController.caught 400 e, s)
        | inr score =>
            ({| Raw.code := 200;
                Raw.sent := Raw.Score {| score := score;
                                         total := List.length quizQuestions |} |}, s)
        end.
Proof.
  intros Hl. destruct (raw_find_quiz_some s quizId Hknown) as [quiz Hf].
  unfold run, Raw.QuizController.submitAnswers, Raw.QuizService.submitAnswers.
  rewrite Hanswers, Hf. cbv zeta. fold quizQuestions.
  rewrite Hl, Nat.eqb_refl. simpl.
  destruct (Raw.QuizService.forEach quizQuestions answers 0); reflexivity.
Qed.

Lemma submit_handler_null_answer :
  List.length answers = List.length quizQuestions ->
  (exists a, In a answers /\ nullish a) ->
  run = (Raw.QuizController.caught 400 Raw.TypeError, s).
Proof.
  intros Hl Hnull. rewrite (submit_handler_scored Hl).
  destruct quizQuestions as [|q qq] eqn:E.
  - destruct answers; [|discriminate]. destruct Hnull as [a [[] _]].
  - destruct (raw_forEach_cases q qq answers 0) as [[_ Hf]|[Hall _]].
    + rewrite Hf. reflexivity.
    + destruct Hnull as [a [Ha Hn]]. exfalso. exact (Hall a Ha Hn).
Qed.

Lemma submit_handler_ok :
  List.length answers = List.length quizQuestions ->
  (forall a, In a answers -> ~ nullish a) ->
  exists score,
    run = ({| Raw.code := 200;
              Raw.sent := Raw.Score {| score := score;
                                       total := List.length quizQuestions |} |}, s)
    /\ score <= List.length quizQuestions.
Proof.
  intros Hl Hall. rewrite (submit_handler_scored Hl).
  destruct quizQuestions as [|q qq] eqn:E.
  - destruct answers; [|discriminate]. exists 0. split; [reflexivity | lia].
  - destruct (raw_forEach_cases q qq answers 0) as [[[a [Ha Hn]] _]|[_ [m [Hf Hm]]]].
    + exfalso. exact (Hall a Ha Hn).
    + rewrite Hf. exists m. split; [reflexivity | lia].
Qed.

End SubmitHandler.

Lemma not_nullish (a : Js.value) : ~ nullish a <-> a <> Js.Undefined /\ a <> Js.Null.
Proof. unfold nullish. tauto. Qed.

Lemma submit_request_refused (s : Raw.Store) (quizId : string) (body : Js.value) :
  (Raw.code (fst (Raw.QuizController.submitAnswers quizId body s)) = 400
   /\ snd (Raw.QuizController.submitAnswers quizId body s) = s)
  \/ exists answers,
       Js.get body "answers" = Some (Js.Arr answers)
       /\ In quizId (List.map Raw.Quiz.id (Raw.quizzes s))
       /\ List.length answers
          = List.length (filter (Raw.QuizService.belongs quizId) (Raw.questions s))
       /\ (forall a, In a answers -> ~ nullish a).
Proof.
  destruct (nullish_dec body) as [Hb|Hb].
  { left. rewrite (submit_handler_no_body s quizId body Hb). auto. }
  destruct (get_some body "answers" Hb) as [v Hg].
  assert (Hna : (forall l, v <> Js.Arr l) ->
                Raw.code (fst (Raw.QuizController.submitAnswers quizId body s)) = 400
                /\ snd (Raw.QuizController.submitAnswers quizId body s) = s).
  { intros H. rewrite (submit_handler_not_array s quizId body v Hg H). auto. }
  destruct v as [| | | | |answers|]; try (left; apply Hna; intros; discriminate).
  destruct (raw_quiz_known_dec s quizId) as [Hk|Hk].
  2:{ left. rewrite (submit_handler_no_quiz s quizId body answers Hg Hk). auto. }
  destruct (Nat.eq_dec (List.length answers)
              (List.length (filter (Raw.QuizService.belongs quizId) (Raw.questions s))))
    as [Hl|Hl].
  2:{ left. rewrite (submit_handler_count s quizId body answers Hg Hk Hl). auto. }
  destruct (Exists_dec nullish answers nullish_dec) as [Hex|Hex].
  - left. apply Exists_exists in Hex.
    rewrite (submit_handler_null_answer s quizId body answers Hg Hk Hl Hex). auto.
  - right. exists answers. repeat split; auto.
    intros a Ha Hn. apply Hex. apply Exists_exists. exists a. auto.
Qed.

(** X14. [QuizController.submitAnswers], for any request body, never changes
    the store and answers 200 or 400.  It answers 200, with [{score, total}]
    where [score <= total], exactly when the body is an object whose
    [answers] is an array, the quiz exists, the array has as many elements as
    the quiz has questions, and no element is [undefined] or [null].  The
    refusals, in the order they are decided: a body that is [undefined] or
    [null] (the engine's TypeError message), "Answers must be an array",
    "Quiz not found", "Answers must cover all questions", and an [undefined]
    or [null] answer (the engine's TypeError message). *)
Theorem submitAnswers_request (s : Raw.Store) (quizId : string) (body : Js.value) :
  let run := Raw.QuizController.submitAnswers quizId body s in
  let total := List.length (filter (fun q => String.eqb (Raw.Question.quizId q) quizId)
                              (Raw.questions s)) in
  let known := exists quiz, In quiz (Raw.quizzes s) /\ Raw.Quiz.id quiz = quizId in
  let refused (error : Raw.said) :=
    fst run = {| Raw.code := 400; Raw.sent := Raw.Failure error |} in
  snd run = s
  /\ (Raw.code (fst run) = 200 \/ Raw.code (fst run) = 400)
  /\ (Raw.code (fst run) = 200
      <-> exists answers,
            Js.get body "answers" = Some (Js.Arr answers)
            /\ known
            /\ List.length answers = total
            /\ (forall a, In a answers -> a <> Js.Undefined /\ a <> Js.Null))
  /\ (Raw.code (fst run) = 200 ->
      exists score,
        Raw.sent (fst run) = Raw.Score {| score := score; total := total |}
        /\ score <= total)
  /\ (body = Js.Undefined \/ body = Js.Null -> refused Raw.EngineMessage)
  /\ (forall v, Js.get body "answers" = Some v -> (forall l, v <> Js.Arr l) ->
        refused (Raw.Message "Answers must be an array"))
  /\ (forall answers, Js.get body "answers" = Some (Js.Arr answers) ->
        (~ known -> refused (Raw.Message "Quiz not found"))
        /\ (known -> List.length answers <> total ->
            refused (Raw.Message "Answers must cover all questions"))
        /\ (known -> List.length answers = total ->
            (exists a, In a answers /\ (a = Js.Undefined \/ a = Js.Null)) ->
            refused Raw.EngineMessage)).
Proof.
  cbv zeta.
  change (filter (fun q => String.eqb (Raw.Question.quizId q) quizId) (Raw.questions s))
    with (filter (Raw.QuizService.belongs quizId) (Raw.questions s)).
  assert (Hok : forall answers,
            Js.get body "answers" = Some (Js.Arr answers) ->
            In quizId (List.map Raw.Quiz.id (Raw.quizzes s)) ->
            List.length answers
            = List.length (filter (Raw.QuizService.belongs quizId) (Raw.questions s)) ->
            (forall a, In a answers -> ~ nullish a) ->
            exists score,
              Raw.QuizController.submitAnswers quizId body s
              = ({| Raw.code := 200;
                    Raw.sent := Raw.Score
                      {| score := score;
                         total := List.length (filter (Raw.QuizService.belongs quizId)
                                                      (Raw.questions s)) |} |}, s)
              /\ score <= List.length (filter (Raw.QuizService.belongs quizId)
                                              (Raw.questions s))).
  { intros answers Hg Hk Hl Hall.
    exact (submit_handler_ok s quizId body answers Hg Hk Hl Hall). }
  split; [|split; [|split; [|split; [|split; [|split]]]]].
  - destruct (submit_request_refused s quizId body) as [[_ Hs]|[answers [Hg [Hk [Hl Hall]]]]];
      [exact Hs|].
    destruct (Hok answers Hg Hk Hl Hall) as [score [Hrun _]]. rewrite Hrun. reflexivity.
  - destruct (submit_request_refused s quizId body) as [[Hc _]|[answers [Hg [Hk [Hl Hall]]]]];
      [right; exact Hc|].
    destruct (Hok answers Hg Hk Hl Hall) as [score [Hrun _]]. rewrite Hrun. left. reflexivity.
  - split.
    + intros H200.
      destruct (submit_request_refused s quizId body)
        as [[Hc _]|[answers [Hg [Hk [Hl Hall]]]]];
        [rewrite Hc in H200; discriminate|].
      exists answers. rewrite <- raw_quiz_known. repeat split; auto;
        apply (not_nullish a); apply Hall; assumption.
    + intros [answers [Hg [Hk [Hl Hall]]]]. apply raw_quiz_known in Hk.
      destruct (Hok answers Hg Hk Hl) as [score [Hrun _]].
      * intros a Ha. apply not_nullish. exact (Hall a Ha).
      * rewrite Hrun. reflexivity.
  - intros H200.
    destruct (submit_request_refused s quizId body)
      as [[Hc _]|[answers [Hg [Hk [Hl Hall]]]]];
      [rewrite Hc in H200; discriminate|].
    destruct (Hok answers Hg Hk Hl Hall) as [score [Hrun Hle]]. rewrite Hrun.
    exists score. split; [reflexivity | exact Hle].
  - intros Hb. rewrite (submit_handler_no_body s quizId body Hb). reflexivity.
  - intros v Hg Hv. rewrite (submit_handler_not_array s quizId body v Hg Hv). reflexivity.
  - intros answers Hg. rewrite <- raw_quiz_known. split; [|split].
    + intros Hk. rewrite (submit_handler_no_quiz s quizId body answers Hg Hk). reflexivity.
    + intros Hk Hl. rewrite (submit_handler_count s quizId body answers Hg Hk Hl).
      reflexivity.
    + intros Hk Hl Hnull.
      rewrite (submit_handler_null_answer s quizId body answers Hg Hk Hl Hnull). reflexivity.
Qed.

Lemma submitAnswers_request_witness :
  fst (Raw.QuizController.submitAnswers "quiz-1" (Js.Obj [("answers", Js.Arr [Js.Null])])
         (js_store math_store))
  = {| Raw.code := 400; Raw.sent := Raw.Failure Raw.EngineMessage |}.
Proof.
  destruct (submitAnswers_request (js_store math_store) "quiz-1"
              (Js.Obj [("answers", Js.Arr [Js.Null])])) as [_ [_ [_ [_ [_ [_ H]]]]]].
  destruct (H [Js.Null] eq_refl) as [_ [_ Hnull]].
  apply Hnull.
  - exists (js_quiz (Quiz.mk "quiz-1" "Math Quiz" ["question-1"])).
    split; [left; reflexivity | reflexivity].
  - reflexivity.
  - exists Js.Null. split; [left; reflexivity | right; reflexivity].
Defined.

(** ** The five handlers together *)

Lemma raw_getQuestions_cases (s : Raw.Store) (quizId : string) :
  (In quizId (List.map Raw.Quiz.id (Raw.quizzes s))
   /\ Raw.QuizController.getQuestions quizId s
      = ({| Raw.code := 200;
            Raw.sent := Raw.Json (Js.Arr (List.map Raw.QuizService.view
                          (filter (Raw.QuizService.belongs quizId) (Raw.questions s)))) |}, s))
  \/ (~ In quizId (List.map Raw.Quiz.id (Raw.quizzes s))
      /\ Raw.QuizController.getQuestions quizId s
         = ({| Raw.code := 404; Raw.sent := Raw.Failure (Raw.Message "Quiz not found") |}, s)).
Proof.
  unfold Raw.QuizController.getQuestions, Raw.QuizService.getQuestions.
  destruct (raw_quiz_known_dec s quizId) as [Hk|Hk].
  - left. split; [exact Hk|]. destruct (raw_find_quiz_some s quizId Hk) as [quiz Hf].
    rewrite Hf. reflexivity.
  - right. split; [exact Hk|]. rewrite (raw_find_quiz_none s quizId Hk). reflexivity.
Qed.

(** The reply and the store of a handler call, by kind of outcome. *)
Lemma raw_handle_cases (uuid : string) (r : Raw.request) (s : Raw.Store) :
  (snd (Raw.handle uuid r s) = s
   /\ (Raw.code (fst (Raw.handle uuid r s)) = 200
       \/ Raw.code (fst (Raw.handle uuid r s)) = 400
       \/ (Raw.code (fst (Raw.handle uuid r s)) = 404
           /\ exists quizId, r = Raw.GetQuestions quizId
                             /\ ~ In quizId (List.map Raw.Quiz.id (Raw.quizzes s)))
       \/ (Raw.code (fst (Raw.handle uuid r s)) = 500
           /\ exists body, r = Raw.PostQuiz body /\ nullish body)))
  \/ (Raw.code (fst (Raw.handle uuid r s)) = 201
      /\ raw_effect s uuid r (snd (Raw.handle uuid r s))
      /\ snd (Raw.handle uuid r s) <> s).
Proof.
  destruct r as [body| |quizId body|quizId|quizId body]; simpl.
  - unfold Raw.QuizController.createQuiz.
    destruct (Js.get body "title") as [title|] eqn:Hg.
    + destruct (Js.truthy title) eqn:Tt; simpl.
      * right. split; [reflexivity | split].
        -- exact (raw_effect_quiz s uuid body title Hg Tt).
        -- intros E. destruct s as [qs ns]. simpl in E. injection E as E.
           apply (f_equal (@List.length _)) in E. rewrite length_app in E. simpl in E. lia.
      * left. auto.
    + left. simpl. split; [reflexivity|]. right. right. right.
      split; [reflexivity|]. exists body. split; [reflexivity|].
      apply (get_none body "title"). exact Hg.
  - left. auto.
  - destruct (addQuestion_request_refused s uuid quizId body)
      as [[Hc Hs]|[text [items [cid Hc]]]].
    + left. auto.
    + right. rewrite (addQuestion_request_created s uuid quizId body text items cid Hc).
      simpl. split; [reflexivity | split].
      * exact (raw_effect_question s uuid quizId body text items cid Hc).
      * intros E. destruct s as [qs ns]. simpl in E. injection E as _ E.
        apply (f_equal (@List.length _)) in E. rewrite length_app in E. simpl in E. lia.
  - left. destruct (raw_getQuestions_cases s quizId) as [[Hk Hrun]|[Hk Hrun]];
      rewrite Hrun; simpl; split; auto.
    right. right. left. split; [reflexivity|]. exists quizId. auto.
  - left. destruct (submit_request_refused s quizId body)
      as [[Hc Hs]|[answers [Hg [Hk [Hl Hall]]]]].
    + auto.
    + destruct (submit_handler_ok s quizId body answers Hg Hk Hl Hall) as [score [Hrun _]].
      rewrite Hrun. simpl. auto.
Qed.

(** X15. What the five handlers answer, for any body and any route
    parameter.  The status is 200, 201, 400, 404 or 500.  It is 500 only for
    [createQuiz] on a body that is [undefined] or [null], and 404 only for
    [getQuestions] on a quiz id that does not resolve ([addQuestion] and
    [submitAnswers] answer 400 there).  The store changes exactly when the
    status is 201. *)
Theorem handler_statuses (uuid : string) (r : Raw.request) (s : Raw.Store) :
  let reply := fst (Raw.handle uuid r s) in
  In (Raw.code reply) [200; 201; 400; 404; 500]
  /\ (Raw.code reply = 500
      <-> exists body, r = Raw.PostQuiz body /\ (body = Js.Undefined \/ body = Js.Null))
  /\ (Raw.code reply = 404
      <-> exists quizId, r = Raw.GetQuestions quizId
                         /\ forall quiz, In quiz (Raw.quizzes s) -> Raw.Quiz.id quiz <> quizId)
  /\ (Raw.code reply = 201 <-> snd (Raw.handle uuid r s) <> s)
  /\ (Raw.code reply = 201 ->
      (exists body, r = Raw.PostQuiz body) \/ (exists quizId body, r = Raw.PostQuestion quizId body)).
Proof.
  cbv zeta.
  assert (Hunknown : forall quizId,
            ~ In quizId (List.map Raw.Quiz.id (Raw.quizzes s))
            <-> forall quiz, In quiz (Raw.quizzes s) -> Raw.Quiz.id quiz <> quizId).
  { intros quizId. rewrite raw_quiz_known. split.
    - intros H quiz HIn E. apply H. exists quiz. auto.
    - intros H [quiz [HIn E]]. exact (H quiz HIn E). }
  assert (H500 : forall body, nullish body ->
            Raw.code (fst (Raw.handle uuid (Raw.PostQuiz body) s)) = 500).
  { intros body Hb. simpl. unfold Raw.QuizController.createQuiz.
    rewrite (proj2 (get_none body "title") Hb). reflexivity. }
  assert (H404 : forall quizId, ~ In quizId (List.map Raw.Quiz.id (Raw.quizzes s)) ->
            Raw.code (fst (Raw.handle uuid (Raw.GetQuestions quizId) s)) = 404).
  { intros quizId Hk. simpl.
    destruct (raw_getQuestions_cases s quizId) as [[Hk' _]|[_ Hrun]];
      [contradiction | rewrite Hrun; reflexivity]. }
  destruct (raw_handle_cases uuid r s)
    as [[Hs [Hc|[Hc|[[Hc [quizId [Hr Hk]]]|[Hc [body [Hr Hb]]]]]]]|[Hc [He Hs]]].
  - rewrite Hc. simpl. repeat split; try discriminate; try tauto.
    + intros [body [-> Hb]]. rewrite (H500 body Hb) in Hc. discriminate.
    + intros [quizId [-> Hk]]. apply Hunknown in Hk. rewrite (H404 quizId Hk) in Hc.
      discriminate.
  - rewrite Hc. simpl. repeat split; try discriminate; try tauto.
    + intros [body [-> Hb]]. rewrite (H500 body Hb) in Hc. discriminate.
    + intros [quizId [-> Hk]]. apply Hunknown in Hk. rewrite (H404 quizId Hk) in Hc.
      discriminate.
  - rewrite Hc. simpl. repeat split; try discriminate; try tauto.
    + intros [body [E _]]. rewrite E in Hr. discriminate.
    + intros _. exists quizId. split; [exact Hr | apply Hunknown; exact Hk].
  - rewrite Hc. simpl. repeat split; try discriminate; try tauto.
    + intros _. exists body. auto.
    + intros [quizId [E _]]. rewrite E in Hr. discriminate.
  - rewrite Hc. simpl. repeat split; try discriminate; try tauto.
    + intros [body [-> Hb]]. rewrite (H500 body Hb) in Hc. discriminate.
    + intros [quizId [-> Hk]]. apply Hunknown in Hk. rewrite (H404 quizId Hk) in Hc.
      discriminate.
    + intros _. destruct He; [contradiction | left; eexists; reflexivity
                             | right; eexists; eexists; reflexivity].
Qed.

Lemma handler_statuses_witness :
  Raw.code (fst (Raw.handle "unused" (Raw.PostQuiz Js.Undefined) (js_store math_store))) = 500.
Proof.
  apply (handler_statuses "unused" (Raw.PostQuiz Js.Undefined) (js_store math_store)).
  exists Js.Undefined. split; [reflexivity | left; reflexivity].
Defined.

(** ** What the handlers let into the store *)

Lemma raw_update_first_title (quizId uuid : string) (l : list Raw.Quiz.t) (x : Raw.Quiz.t) :
  In x (update_first (Raw.has_id quizId) (Raw.push_id uuid) l) ->
  exists x0, In x0 l /\ Raw.Quiz.title x = Raw.Quiz.title x0.
Proof.
  induction l as [|q l IH]; simpl; [intros []|].
  destruct (Raw.has_id quizId q).
  - intros [E|H]; [exists q; subst x; auto | exists x; auto].
  - intros [E|H]; [exists x; auto|].
    destruct (IH H) as [x0 [H0 E]]. exists x0. auto.
Qed.

Lemma raw_effect_of_handle (uuid : string) (r : Raw.request) (s : Raw.Store) :
  raw_effect s uuid r (snd (Raw.handle uuid r s)).
Proof.
  destruct (raw_handle_cases uuid r s) as [[Hs _]|[_ [He _]]].
  - rewrite Hs. apply raw_effect_none.
  - exact He.
Qed.

(** X17. What the handlers check holds of everything stored through them,
    for any request bodies.  In a store built by handler calls every quiz has
    a truthy title, and every question has a truthy text, a truthy
    [correctOptionId], at least two options, an option whose [id] is
    [correctOptionId], and the id of a stored quiz as [quizId].  Nothing
    more is checked: a title or text need not be a string, nor an option an
    [{id, text}] pair. *)
Theorem served_data_checked (s : Raw.Store) :
  Raw.served s ->
  (forall quiz, In quiz (Raw.quizzes s) -> Js.truthy (Raw.Quiz.title quiz) = true)
  /\ (forall q, In q (Raw.questions s) ->
        Js.truthy (Raw.Question.text q) = true
        /\ Js.truthy (Raw.Question.correctOptionId q) = true
        /\ 2 <= List.length (Raw.Question.options q)
        /\ (exists opt id,
              In opt (Raw.Question.options q)
              /\ Js.get opt "id" = Some id
              /\ Js.strict_eq id (Raw.Question.correctOptionId q) = true)
        /\ (exists quiz, In quiz (Raw.quizzes s)
                         /\ Raw.Quiz.id quiz = Raw.Question.quizId q)).
Proof.
  induction 1 as [|s uuid r _ [IHz IHq]].
  - split; intros x [].
  - destruct (raw_effect_of_handle uuid r s)
      as [r|body title Hg Tt|quizId body text items cid Hc].
    + split; assumption.
    + split; simpl.
      * intros quiz HIn. apply in_app_or in HIn.
        destruct HIn as [HIn|[<-|[]]]; [exact (IHz quiz HIn) | exact Tt].
      * intros q Hq. destruct (IHq q Hq) as [H1 [H2 [H3 [H4 [quiz [H5 H6]]]]]].
        repeat split; auto. exists quiz. split; [apply in_or_app; left; exact H5 | exact H6].
    + assert (Hids : forall k,
                (exists quiz, In quiz (Raw.quizzes s) /\ Raw.Quiz.id quiz = k) ->
                exists quiz,
                  In quiz (update_first (Raw.has_id quizId) (Raw.push_id uuid) (Raw.quizzes s))
                  /\ Raw.Quiz.id quiz = k).
      { intros k [quiz [HIn E]].
        assert (Hk : In k (List.map Raw.Quiz.id
                             (update_first (Raw.has_id quizId) (Raw.push_id uuid)
                                (Raw.quizzes s)))).
        { rewrite raw_update_first_ids. apply in_map_iff. exists quiz. auto. }
        apply in_map_iff in Hk. destruct Hk as [quiz' [E' HIn']]. exists quiz'. auto. }
      split; simpl.
      * intros quiz HIn.
        destruct (raw_update_first_title quizId uuid (Raw.quizzes s) quiz HIn)
          as [quiz0 [H0 E]].
        rewrite E. exact (IHz quiz0 H0).
      * intros q Hq. apply in_app_or in Hq. destruct Hq as [Hq|[<-|[]]].
        -- destruct (IHq q Hq) as [H1 [H2 [H3 [H4 H5]]]]. repeat split; auto.
        -- destruct Hc as [_ [_ [_ [Tt [Tc [Hl [Hk Hn]]]]]]]. simpl.
           repeat split; auto.
           destruct Hn as [before [opt [id [after [-> [_ [Hg He]]]]]]].
           exists opt, id. repeat split; auto.
           apply in_or_app. right. left. reflexivity.
Qed.

Lemma served_data_checked_witness :
  Js.truthy (Js.Number PrimFloat.one) = true.
Proof.
  assert (Hs : Raw.served
                 (snd (Raw.handle "quiz-1"
                         (Raw.PostQuiz (Js.Obj [("title", Js.Number PrimFloat.one)]))
                         Raw.empty))).
  { apply Raw.served_handle. apply Raw.served_empty. }
  destruct (served_data_checked _ Hs) as [Hz _].
  apply (Hz (Raw.Quiz.mk "quiz-1" (Js.Number PrimFloat.one) [])).
  left. reflexivity.
Defined.

(** ** Requests that carry the data model *)













